(** * DieStudyVis: the dual-coloured coin viewer

    A shallow embedding of [src/DieStudyVis.py] (class [DualColorCoinViewer])
    and the properties of its plotting routine and of its mouse handlers.

    The Python class keeps its state in attributes of [self] and mutates it
    from callbacks; handlers may raise after having changed the state.  The
    embedding threads a record of those attributes through a small
    state-and-exception monad.  Numbers are Python floats: the handlers are
    written once over an interface of the float operations they use, with
    two instances, IEEE binary64 (what the interpreter computes) and exact
    rationals (the arithmetic the viewport formulas are read in). *)

From Stdlib Require Import ZArith QArith Qabs Lia Lqa Ascii String.
From Stdlib Require Import Floats.SpecFloat.
From stdpp Require Import base option list gmap strings.

#[local] Set Warnings "-clear-no-such-hyp".



(** ** Python floats *)

Module PyNum.

(** The operations of [float] the viewer uses.  [of_int] is the coercion
    of an [int] operand in mixed arithmetic ([1 / base_scale], [... / 2]),
    [lit_1_2] and [lit_0_1] the literals [1.2] and [0.1], [truthy] is
    [bool(x)] and [feq] is [==]. *)
Class Float (num : Type) := {
  fadd : num → num → num;
  fsub : num → num → num;
  fmul : num → num → num;
  fdiv : num → num → num;
  of_int : Z → num;
  lit_1_2 : num;
  lit_0_1 : num;
  truthy : num → bool;
  feq : num → num → Prop
}.

(** [bool(x)] is false exactly when [x == 0]. *)
Class FloatLaws (num : Type) `{Float num} := {
  truthy_zero : ∀ x : num, truthy x = false ↔ feq x (of_int 0)
}.

(** *** IEEE 754 binary64, round to nearest even *)

Definition prec : Z := 53.
Definition emax : Z := 1024.

Definition b64_of_Z (z : Z) : spec_float :=
  match z with
  | Z0 => S754_zero false
  | Zpos p => binary_round prec emax false p 0
  | Zneg p => binary_round prec emax true p 0
  end.

Definition b64_div : spec_float → spec_float → spec_float := SFdiv prec emax.

(** A decimal literal [n / 10^k] is read as the nearest double; 12 and 10
    are doubles and the division rounds correctly, so [1.2] is
    [12 / 10]. *)
Definition b64_1_2 : spec_float :=
  Eval vm_compute in b64_div (b64_of_Z 12) (b64_of_Z 10).
Definition b64_0_1 : spec_float :=
  Eval vm_compute in b64_div (b64_of_Z 1) (b64_of_Z 10).

(** [bool(x)] is [x != 0]: both zeros are false, NaN is true. *)
Definition b64_truthy (x : spec_float) : bool :=
  match x with
  | S754_zero _ => false
  | _ => true
  end.

#[export] Instance binary64 : Float spec_float := {|
  fadd := SFadd prec emax;
  fsub := SFsub prec emax;
  fmul := SFmul prec emax;
  fdiv := b64_div;
  of_int := b64_of_Z;
  lit_1_2 := b64_1_2;
  lit_0_1 := b64_0_1;
  truthy := b64_truthy;
  feq := λ x y, SFeqb x y = true
|}.

(** The rational a finite double denotes. *)
Definition b64_to_Q (x : spec_float) : option Q :=
  match x with
  | S754_zero _ => Some 0%Q
  | S754_finite s m e =>
      let v := (inject_Z (Zpos m) * Qpower 2 e)%Q in
      Some (if s then Qopp v else v)
  | _ => None
  end.

(** *** Exact rationals *)

#[export] Instance exact : Float Q := {|
  fadd := Qplus;
  fsub := Qminus;
  fmul := Qmult;
  fdiv := Qdiv;
  of_int := inject_Z;
  lit_1_2 := (6 # 5)%Q;
  lit_0_1 := (1 # 10)%Q;
  truthy := λ x, negb (Qeq_bool x 0);
  feq := Qeq
|}.

End PyNum.
Import PyNum.

Declare Scope py_scope.
Delimit Scope py_scope with py.
Infix "+" := fadd : py_scope.
Infix "-" := fsub : py_scope.
Infix "*" := fmul : py_scope.
Infix "/" := fdiv : py_scope.

(** ** Exceptions and the handler monad *)

Inductive exn :=
  | KeyError (key : string)
  | IndexError
  | AttributeError (attr : string)
  | TypeError.

(** A method of the viewer: it reads and writes the attributes of [self]
    and either returns or raises; the attributes written before a [raise]
    stay written. *)
Definition py (S A : Type) : Type := S → S * (exn + A).

Definition ret {S A} (a : A) : py S A := λ s, (s, inr a).
Definition raise {S A} (e : exn) : py S A := λ s, (s, inl e).
Definition bind {S A B} (c : py S A) (k : A → py S B) : py S B :=
  λ s, match c s with
       | (s', inr a) => k a s'
       | (s', inl e) => (s', inl e)
       end.
Definition gets {S A} (f : S → A) : py S A := λ s, (s, inr (f s)).
Definition modify {S} (f : S → S) : py S unit := λ s, (f s, inr tt).

(** [o] when it is there, else the exception. *)
Definition or_raise {S A} (e : exn) (o : option A) : py S A :=
  match o with
  | Some a => ret a
  | None => raise e
  end.

Notation "x <- c ;; k" := (bind c (λ x, k))
  (at level 100, c at next level, right associativity,
   format "'[v' x  <-  c  ;;  '/' k ']'").
Notation "c ;;; k" := (bind c (λ _, k))
  (at level 100, right associativity, format "'[v' c  ;;;  '/' k ']'").
Notation "'when' b 'then_return' 'else' k" := (if b then ret tt else k)
  (at level 100, b at next level, right associativity).

(** ** The data *)

(** A matplotlib [Wedge] as [plot_coins] builds it. *)
Record Wedge (cell color num : Type) := mkWedge {
  center : cell * cell;
  r : num;
  theta1 : Z;
  theta2 : Z;
  facecolor : color;
  edgecolor : string;
  picker : bool;
  gid : option nat
}.
Arguments mkWedge {cell color num}.
Arguments center {cell color num}.
Arguments r {cell color num}.
Arguments theta1 {cell color num}.
Arguments theta2 {cell color num}.
Arguments facecolor {cell color num}.
Arguments edgecolor {cell color num}.
Arguments picker {cell color num}.
Arguments gid {cell color num}.

Definition set_gid {cell color num} (i : nat) (w : Wedge cell color num) :=
  mkWedge (center w) (r w) (theta1 w) (theta2 w) (facecolor w)
          (edgecolor w) (picker w) (Some i).

(** The [Axes] of the figure: its patches and its view limits (what
    [get_xlim], [get_ylim] return and [set_xlim], [set_ylim] store). *)
Record Axes (cell color num : Type) := mkAxes {
  axison : bool;
  ax_patches : list (Wedge cell color num);
  xlim : num * num;
  ylim : num * num
}.
Arguments mkAxes {cell color num}.
Arguments axison {cell color num}.
Arguments ax_patches {cell color num}.
Arguments xlim {cell color num}.
Arguments ylim {cell color num}.

(** A pandas [DataFrame]: named columns over a common index. *)
Record DataFrame (cell : Type) := mkDataFrame {
  columns : gmap string (list cell);
  nrows : nat
}.
Arguments mkDataFrame {cell}.
Arguments columns {cell}.
Arguments nrows {cell}.

(** Every column has one cell per row. *)
Definition df_wf {cell} (d : DataFrame cell) : Prop :=
  map_Forall (λ _ col, length col = nrows d) (columns d).

(** [event.button]: a mouse button number, or ['up'] / ['down'] for the
    wheel, or [None]. *)
Inductive Button :=
  | BInt (n : Z)
  | BStr (s : string)
  | BNone.

#[export] Instance Button_eq_dec : EqDecision Button.
Proof. solve_decision. Defined.

Definition button_is_int (b : Button) (n : Z) : bool :=
  match b with
  | BInt m => bool_decide (m = n)
  | _ => false
  end.

Definition button_is_str (b : Button) (s : string) : bool :=
  match b with
  | BStr t => bool_decide (t = s)
  | _ => false
  end.

(** A matplotlib [MouseEvent].  The figure holds one [Axes], so [inaxes]
    is that [Axes] or [None]; [xdata] and [ydata] are [None] outside it. *)
Record MouseEvent (num : Type) := mkMouseEvent {
  button : Button;
  inaxes : bool;
  xdata : option num;
  ydata : option num
}.
Arguments mkMouseEvent {num}.
Arguments button {num}.
Arguments inaxes {num}.
Arguments xdata {num}.
Arguments ydata {num}.

(** A [PickEvent]: the mouse event behind it and the artist that was hit,
    one of the wedges of the plot. *)
Record PickEvent (cell color num : Type) := mkPickEvent {
  mouseevent : MouseEvent num;
  artist : Wedge cell color num
}.
Arguments mkPickEvent {cell color num}.
Arguments mouseevent {cell color num}.
Arguments artist {cell color num}.

(** ** The viewer *)

(** The attributes of [self] the methods below read or write. *)
Record Viewer (cell color num : Type) := mkViewer {
  df : DataFrame cell;  (* the loaded table *)
  x_column : string;  (* [currentText()] of the four combo boxes *)
  y_column : string;
  obv_column : string;
  rev_column : string;
  figure_axes : list (Axes cell color num);  (* [self.canvas.figure.axes] *)
  patches : option (list (Wedge cell color num * Wedge cell color num));  (* [self.patches], absent until the first plot *)
  connected : bool;  (* the handlers are connected to the canvas *)
  _suppress_next_drag : bool;
  _is_dragging : option bool;  (* absent until the first press or release *)
  _drag_start : option (option num * option num);  (* set by [on_press] with [_xlim_start] and [_ylim_start] *)
  _xlim_start : option (num * num);
  _ylim_start : option (num * num);
  shown : list string;  (* the texts of the message boxes shown, latest first *)
  draws : nat  (* redraws requested from the canvas *)
}.
Arguments mkViewer {cell color num}.
Arguments df {cell color num}.
Arguments x_column {cell color num}.
Arguments y_column {cell color num}.
Arguments obv_column {cell color num}.
Arguments rev_column {cell color num}.
Arguments figure_axes {cell color num}.
Arguments patches {cell color num}.
Arguments connected {cell color num}.
Arguments _suppress_next_drag {cell color num}.
Arguments _is_dragging {cell color num}.
Arguments _drag_start {cell color num}.
Arguments _xlim_start {cell color num}.
Arguments _ylim_start {cell color num}.
Arguments shown {cell color num}.
Arguments draws {cell color num}.

Section Setters.
Context {cell color num : Type}.
#[local] Abbreviation Viewer := (Viewer cell color num).

Definition set_figure_axes (x : list (Axes cell color num)) (v : Viewer) : Viewer :=
  mkViewer (df v) (x_column v) (y_column v) (obv_column v) (rev_column v) x (patches v) (connected v) (_suppress_next_drag v) (_is_dragging v) (_drag_start v) (_xlim_start v) (_ylim_start v) (shown v) (draws v).
Definition set_patches (x : option (list (Wedge cell color num * Wedge cell color num))) (v : Viewer) : Viewer :=
  mkViewer (df v) (x_column v) (y_column v) (obv_column v) (rev_column v) (figure_axes v) x (connected v) (_suppress_next_drag v) (_is_dragging v) (_drag_start v) (_xlim_start v) (_ylim_start v) (shown v) (draws v).
Definition set_connected (x : bool) (v : Viewer) : Viewer :=
  mkViewer (df v) (x_column v) (y_column v) (obv_column v) (rev_column v) (figure_axes v) (patches v) x (_suppress_next_drag v) (_is_dragging v) (_drag_start v) (_xlim_start v) (_ylim_start v) (shown v) (draws v).
Definition set_suppress_next_drag (x : bool) (v : Viewer) : Viewer :=
  mkViewer (df v) (x_column v) (y_column v) (obv_column v) (rev_column v) (figure_axes v) (patches v) (connected v) x (_is_dragging v) (_drag_start v) (_xlim_start v) (_ylim_start v) (shown v) (draws v).
Definition set_is_dragging (x : option bool) (v : Viewer) : Viewer :=
  mkViewer (df v) (x_column v) (y_column v) (obv_column v) (rev_column v) (figure_axes v) (patches v) (connected v) (_suppress_next_drag v) x (_drag_start v) (_xlim_start v) (_ylim_start v) (shown v) (draws v).
Definition set_drag_start (x : option (option num * option num)) (v : Viewer) : Viewer :=
  mkViewer (df v) (x_column v) (y_column v) (obv_column v) (rev_column v) (figure_axes v) (patches v) (connected v) (_suppress_next_drag v) (_is_dragging v) x (_xlim_start v) (_ylim_start v) (shown v) (draws v).
Definition set_xlim_start (x : option (num * num)) (v : Viewer) : Viewer :=
  mkViewer (df v) (x_column v) (y_column v) (obv_column v) (rev_column v) (figure_axes v) (patches v) (connected v) (_suppress_next_drag v) (_is_dragging v) (_drag_start v) x (_ylim_start v) (shown v) (draws v).
Definition set_ylim_start (x : option (num * num)) (v : Viewer) : Viewer :=
  mkViewer (df v) (x_column v) (y_column v) (obv_column v) (rev_column v) (figure_axes v) (patches v) (connected v) (_suppress_next_drag v) (_is_dragging v) (_drag_start v) (_xlim_start v) x (shown v) (draws v).
Definition set_shown (x : list string) (v : Viewer) : Viewer :=
  mkViewer (df v) (x_column v) (y_column v) (obv_column v) (rev_column v) (figure_axes v) (patches v) (connected v) (_suppress_next_drag v) (_is_dragging v) (_drag_start v) (_xlim_start v) (_ylim_start v) x (draws v).
Definition set_draws (x : nat) (v : Viewer) : Viewer :=
  mkViewer (df v) (x_column v) (y_column v) (obv_column v) (rev_column v) (figure_axes v) (patches v) (connected v) (_suppress_next_drag v) (_is_dragging v) (_drag_start v) (_xlim_start v) (_ylim_start v) (shown v) x.
Definition set_obv_column (x : string) (v : Viewer) : Viewer :=
  mkViewer (df v) (x_column v) (y_column v) x (rev_column v) (figure_axes v) (patches v) (connected v) (_suppress_next_drag v) (_is_dragging v) (_drag_start v) (_xlim_start v) (_ylim_start v) (shown v) (draws v).

Definition set_xlim (l : num * num) (ax : Axes cell color num) :=
  mkAxes (axison ax) (ax_patches ax) l (ylim ax).
Definition set_ylim (l : num * num) (ax : Axes cell color num) :=
  mkAxes (axison ax) (ax_patches ax) (xlim ax) l.
Definition set_axis_off (ax : Axes cell color num) :=
  mkAxes false (ax_patches ax) (xlim ax) (ylim ax).
Definition add_patch (w : Wedge cell color num) (ax : Axes cell color num) :=
  mkAxes (axison ax) (ax_patches ax ++ [w]) (xlim ax) (ylim ax).
End Setters.

(** ** pandas and seaborn, as far as [plot_coins] uses them *)

Section Library.
Context {cell color : Type} `{Countable cell}.

(** [Series.unique()]: the distinct values in order of appearance, found
    with a table of the values seen so far. *)
Fixpoint unique_from (seen : gset cell) (vals : list cell) : list cell :=
  match vals with
  | [] => []
  | v :: vals =>
      if decide (v ∈ seen) then unique_from seen vals
      else v :: unique_from ({[v]} ∪ seen) vals
  end.

Definition unique (vals : list cell) : list cell := unique_from ∅ vals.

(** [sns.color_palette(name, n)]: the first [n] colours of the named
    palette [base], taken cyclically. *)
Definition color_palette (base : list color) (n : nat) : list color :=
  omap (λ i, base !! (i mod length base)) (seq 0 n).

(** [{val: palette[i] for i, val in enumerate(vals)}], from index [i]
    on; [palette[i]] raises [IndexError] past the end. *)
Fixpoint dict_enumerate (palette : list color) (i : nat) (vals : list cell)
    (acc : gmap cell color) : exn + gmap cell color :=
  match vals with
  | [] => inr acc
  | val :: vals =>
      match palette !! i with
      | Some c => dict_enumerate palette (S i) vals (<[val := c]> acc)
      | None => inl IndexError
      end
  end.

(** The colour map of one categorical column: what lines 105 to 111
    compute for [obv] with ["Set1"] and for [rev] with ["Set2"]. *)
Definition color_map (base : list color) (col : list cell)
    : exn + gmap cell color :=
  let col_unique := unique col in
  let palette := color_palette base (length col_unique) in
  dict_enumerate palette 0 col_unique ∅.

(** [df.iloc[ind]]: the row at position [ind], indexed by column name. *)
Definition iloc (d : DataFrame cell) (ind : nat) : option (gmap string cell) :=
  if decide (ind < nrows d) then Some (omap (λ col, col !! ind) (columns d))
  else None.
End Library.

(** ** Viewport rectangles *)

(** A rectangle [((xMin, xMax), (yMin, yMax))]. *)
Definition Rect (num : Type) : Type := (num * num) * (num * num).

Section Rectangles.
Context {num : Type} `{Float num}.
#[local] Abbreviation Rect := (Rect num).

(** Equality of the four bounds as numbers ([==]). *)
Definition rect_eq (a b : Rect) : Prop :=
  feq a.1.1 b.1.1 ∧ feq a.1.2 b.1.2 ∧ feq a.2.1 b.2.1 ∧ feq a.2.2 b.2.2.

(** [zoomAround] as the specification words it: every bound is moved
    towards the cursor by [factor], so the cursor keeps its place. *)
Definition zoomAround (vp : Rect) (cx cy factor : num) : Rect :=
  ((cx - (cx - vp.1.1) * factor, cx - (cx - vp.1.2) * factor),
   (cy - (cy - vp.2.1) * factor, cy - (cy - vp.2.2) * factor))%py.

(** The rectangle of the scaled size with the cursor at its centre. *)
Definition zoom_centred (vp : Rect) (cx cy factor : num) : Rect :=
  ((cx - (vp.1.2 - vp.1.1) * factor / of_int 2,
    cx + (vp.1.2 - vp.1.1) * factor / of_int 2),
   (cy - (vp.2.2 - vp.2.1) * factor / of_int 2,
    cy + (vp.2.2 - vp.2.1) * factor / of_int 2))%py.

(** The centre of a rectangle. *)
Definition centre (vp : Rect) : num * num :=
  ((vp.1.1 + vp.1.2) / of_int 2, (vp.2.1 + vp.2.2) / of_int 2)%py.

(** The rectangle moved by [-dx, -dy]. *)
Definition pan_back (vp : Rect) (dx dy : num) : Rect :=
  ((vp.1.1 - dx, vp.1.2 - dx), (vp.2.1 - dy, vp.2.2 - dy))%py.
End Rectangles.

(** ** The methods of [DualColorCoinViewer] *)

Section Methods.
Context {num : Type} `{Float num}.
Context {cell color : Type} `{Countable cell}.

(** [str] of a table cell, as the f-string of [on_click] formats it. *)
Variable str : cell → string.
(** The seaborn palettes ["Set1"] and ["Set2"]. *)
Variables Set1 Set2 : list color.
(** [ax.relim(); ax.autoscale_view()]: the view limits matplotlib
    derives from the patches of the axes. *)
Variable autoscale_view : list (Wedge cell color num) → (num * num) * (num * num).

#[local] Abbreviation Viewer := (Viewer cell color num).
#[local] Abbreviation Wedge := (Wedge cell color num).
#[local] Abbreviation Axes := (Axes cell color num).
#[local] Abbreviation method := (py Viewer unit).

Definition lift {A} (x : exn + A) : py Viewer A :=
  match x with
  | inr a => ret a
  | inl e => raise e
  end.

(** [self.df[name]] *)
Definition df_getitem (name : string) : py Viewer (list cell) :=
  d <- gets df ;;
  or_raise (KeyError name) (columns d !! name).

(** [self.canvas.figure.axes[0]] *)
Definition axes0 : py Viewer Axes :=
  axs <- gets figure_axes ;;
  or_raise IndexError (head axs).

(** A method call on the [Axes] object of the figure. *)
Definition on_axes (f : Axes → Axes) : method :=
  modify (λ v, set_figure_axes
                 (match figure_axes v with
                  | ax :: rest => f ax :: rest
                  | [] => []
                  end) v).

Definition draw : method := modify (λ v, set_draws (S (draws v)) v).
Definition draw_idle : method := draw.

(** [all([x_col, y_col, obv_col, rev_col])]: every text is non-empty. *)
Definition all_selected (texts : list string) : bool :=
  forallb (λ t, negb (String.eqb t "")) texts.

Definition radius : num := lit_0_1.

(** The loop of lines 115 to 128 over
    [enumerate(zip(x, y, obv, rev))], from index [i] on. *)
Fixpoint add_wedges (obv_map rev_map : gmap cell color) (i : nat)
    (rows : list (cell * cell * cell * cell)) : method :=
  match rows with
  | [] => ret tt
  | (xi, yi, o, rv) :: rows =>
      c1 <- or_raise (KeyError (str o)) (obv_map !! o) ;;
      let wedge1 :=
        set_gid i (mkWedge (xi, yi) radius 90 270 c1 "black" true None) in
      on_axes (add_patch wedge1) ;;;
      c2 <- or_raise (KeyError (str rv)) (rev_map !! rv) ;;
      let wedge2 :=
        set_gid i (mkWedge (xi, yi) radius 270 90 c2 "black" true None) in
      on_axes (add_patch wedge2) ;;;
      modify (λ v, set_patches
                     (Some (default [] (patches v) ++ [(wedge1, wedge2)])) v) ;;;
      add_wedges obv_map rev_map (S i) rows
  end.

(** The pairs that loop appends to [self.patches], as a list. *)
Fixpoint wedge_pairs (obv_map rev_map : gmap cell color) (i : nat)
    (rows : list (cell * cell * cell * cell)) : option (list (Wedge * Wedge)) :=
  match rows with
  | [] => Some []
  | (xi, yi, o, rv) :: rows =>
      c1 ← obv_map !! o;
      c2 ← rev_map !! rv;
      rest ← wedge_pairs obv_map rev_map (S i) rows;
      Some ((mkWedge (xi, yi) radius 90 270 c1 "black" true (Some i),
             mkWedge (xi, yi) radius 270 90 c2 "black" true (Some i)) :: rest)
  end.

(** Two wedges that differ at most in their fill colour. *)
Definition same_shape (w w' : Wedge) : Prop :=
  center w = center w' ∧ r w = r w' ∧ theta1 w = theta1 w'
  ∧ theta2 w = theta2 w' ∧ edgecolor w = edgecolor w'
  ∧ picker w = picker w' ∧ gid w = gid w'.

Definition zip4 (x y obv rev : list cell) : list (cell * cell * cell * cell) :=
  zip (zip (zip x y) obv) rev.

Definition plot_coins : method :=
  x_col <- gets x_column ;;
  y_col <- gets y_column ;;
  obv_col <- gets obv_column ;;
  rev_col <- gets rev_column ;;
  when negb (all_selected [x_col; y_col; obv_col; rev_col]) then_return else
  x <- df_getitem x_col ;;
  y <- df_getitem y_col ;;
  obv <- df_getitem obv_col ;;
  rev <- df_getitem rev_col ;;
  (* figure.clear(); ax = figure.add_subplot(111); ax.set_axis_off() *)
  modify (set_figure_axes []) ;;;
  modify (set_figure_axes [mkAxes true [] (of_int 0, of_int 1) (of_int 0, of_int 1)]) ;;;
  on_axes set_axis_off ;;;
  let obv_unique := unique obv in
  let rev_unique := unique rev in
  let obv_palette := color_palette Set1 (length obv_unique) in
  let rev_palette := color_palette Set2 (length rev_unique) in
  obv_map <- lift (dict_enumerate obv_palette 0 obv_unique ∅) ;;
  rev_map <- lift (dict_enumerate rev_palette 0 rev_unique ∅) ;;
  modify (set_patches (Some [])) ;;;
  add_wedges obv_map rev_map 0 (zip4 x y obv rev) ;;;
  modify (set_connected true) ;;;
  on_axes (λ ax, let lims := autoscale_view (ax_patches ax) in
                 set_ylim lims.2 (set_xlim lims.1 ax)) ;;;
  draw.

(** The wedges of those pairs, in the order the axes receive them. *)
Definition flat_wedges (ps : list (Wedge * Wedge)) : list Wedge :=
  ps ≫= λ p, [p.1; p.2].

(** The viewer a plot with the pairs [ps] leaves: [self.patches] and the
    axes hold them and the view is autoscaled. *)
Definition plotted (v : Viewer) (ps : list (Wedge * Wedge)) : Viewer :=
  let lims := autoscale_view (flat_wedges ps) in
  set_draws (S (draws v))
    (set_figure_axes [mkAxes false (flat_wedges ps) lims.1 lims.2]
       (set_connected true (set_patches (Some ps) v))).

Definition nl : string := String "010"%char "".

(** [QMessageBox.information(self, "Coin Info", msg)] *)
Definition information (msg : string) : method :=
  modify (λ v, set_shown (msg :: shown v) v).

Definition on_click (event : PickEvent cell color num) : method :=
  when negb (button_is_int (button (mouseevent event)) 1) then_return else
  modify (set_suppress_next_drag true) ;;;
  ind <- or_raise TypeError (gid (artist event)) ;;
  d <- gets df ;;
  row <- or_raise IndexError (iloc d ind) ;;
  name <- or_raise (KeyError "name") (row !! "name") ;;
  obverse_group <- or_raise (KeyError "obverse_group") (row !! "obverse_group") ;;
  reverse_group <- or_raise (KeyError "reverse_group") (row !! "reverse_group") ;;
  let msg := ("Name: " ++ str name ++ nl
              ++ "Obverse Group: " ++ str obverse_group ++ nl
              ++ "Reverse Group: " ++ str reverse_group)%string in
  information msg.

(** The branch of lines 175 to 183. *)
Definition scale_factor (b : Button) : num :=
  let base_scale := lit_1_2 in
  if button_is_str b "up" then (of_int 1 / base_scale)%py
  else if button_is_str b "down" then base_scale
  else of_int 1.

Definition on_scroll (event : MouseEvent num) : method :=
  ax <- axes0 ;;
  match xdata event, ydata event with
  | Some xd, Some yd =>
      let '(x_left, x_right) := xlim ax in
      let '(y_bottom, y_top) := ylim ax in
      let x_range := (x_right - x_left)%py in
      let y_range := (y_top - y_bottom)%py in
      let sf := scale_factor (button event) in
      let new_xlim := (xd - x_range * sf / of_int 2,
                       xd + x_range * sf / of_int 2)%py in
      let new_ylim := (yd - y_range * sf / of_int 2,
                       yd + y_range * sf / of_int 2)%py in
      on_axes (set_xlim new_xlim) ;;;
      on_axes (set_ylim new_ylim) ;;;
      draw_idle
  | _, _ => ret tt
  end.

Definition on_press (event : MouseEvent num) : method :=
  suppress <- gets _suppress_next_drag ;;
  if suppress : bool then modify (set_suppress_next_drag false)
  else if button_is_int (button event) 1 && inaxes event then
    modify (set_is_dragging (Some true)) ;;;
    modify (set_drag_start (Some (xdata event, ydata event))) ;;;
    ax <- axes0 ;;
    modify (set_xlim_start (Some (xlim ax))) ;;;
    modify (set_ylim_start (Some (ylim ax)))
  else ret tt.

(** Truth value of [event.xdata]: [None] and zero are false. *)
Definition truthy_opt (o : option num) : bool :=
  match o with
  | Some x => truthy x
  | None => false
  end.

(** [self.<attr>], which raises when the attribute was never set. *)
Definition getattr {A} (attr : string) (f : Viewer → option A) : py Viewer A :=
  o <- gets f ;;
  or_raise (AttributeError attr) o.

(** [a - b] on operands that may be [None]. *)
Definition sub_opt (a b : option num) : py Viewer num :=
  match a, b with
  | Some x, Some y => ret (x - y)%py
  | _, _ => raise TypeError
  end.

Definition on_motion (event : MouseEvent num) : method :=
  dragging <- gets (λ v, default false (_is_dragging v)) ;;
  if dragging && inaxes event
     && truthy_opt (xdata event) && truthy_opt (ydata event) then
    start <- getattr "_drag_start" _drag_start ;;
    dx <- sub_opt (xdata event) start.1 ;;
    dy <- sub_opt (ydata event) start.2 ;;
    xs <- getattr "_xlim_start" _xlim_start ;;
    ys <- getattr "_ylim_start" _ylim_start ;;
    let new_xlim := (xs.1 - dx, xs.2 - dx)%py in
    let new_ylim := (ys.1 - dy, ys.2 - dy)%py in
    on_axes (set_xlim new_xlim) ;;;
    on_axes (set_ylim new_ylim) ;;;
    draw_idle
  else ret tt.

Definition on_release (event : MouseEvent num) : method :=
  modify (set_is_dragging (Some false)).

(** *** Events *)

(** What the canvas delivers once [plot_coins] has connected the
    handlers. *)
Inductive Event :=
  | Scroll (event : MouseEvent num)
  | Press (event : MouseEvent num)
  | Motion (event : MouseEvent num)
  | Release (event : MouseEvent num)
  | Pick (event : PickEvent cell color num).

Definition handler (ev : Event) : method :=
  match ev with
  | Scroll e => on_scroll e
  | Press e => on_press e
  | Motion e => on_motion e
  | Release e => on_release e
  | Pick e => on_click e
  end.

(** The callback registry reports an exception a handler raises and goes
    on: the viewer keeps the state the handler left. *)
Definition dispatch (v : Viewer) (ev : Event) : Viewer := (handler ev v).1.

Definition run (evs : list Event) (v : Viewer) : Viewer := foldl dispatch v evs.

(** The visible rectangle: the limits of the axes of the figure. *)
Definition viewport (v : Viewer) : option (Rect num) :=
  ax ← head (figure_axes v); Some (xlim ax, ylim ax).

(** A drag is under way: it started at [(px, py)] with the view
    [snapshot], and the figure has its axes. *)
Definition dragging_from (v : Viewer) (px py : num) (snapshot : Rect num) : Prop :=
  _is_dragging v = Some true
  ∧ _drag_start v = Some (Some px, Some py)
  ∧ _xlim_start v = Some snapshot.1
  ∧ _ylim_start v = Some snapshot.2
  ∧ figure_axes v ≠ [].

(** No drag is under way. *)
Definition idle (v : Viewer) : Prop := default false (_is_dragging v) = false.

(** A pointer position inside the axes, with both data coordinates. *)
Definition inside (event : MouseEvent num) (x y : num) : Prop :=
  inaxes event = true ∧ xdata event = Some x ∧ ydata event = Some y.
End Methods.

(** ** A small session *)

Module Example.

(** The first colours of the two palettes, by name. *)
Definition Set1 : list string :=
  ["red"; "blue"; "green"; "purple"; "orange"; "yellow"; "brown"; "pink"; "gray"].
Definition Set2 : list string :=
  ["teal"; "salmon"; "lavender"; "rose"; "lime"; "gold"; "tan"; "silver"].

(** Three coins; the cells are kept as text. *)
Definition coins : DataFrame string :=
  mkDataFrame
    (list_to_map
       [("x", ["1"; "2"; "3"]); ("y", ["1"; "1"; "2"]);
        ("obverse", ["A"; "B"; "A"]); ("reverse", ["X"; "Y"; "X"]);
        ("name", ["c0"; "c1"; "c2"]);
        ("obverse_group", ["A"; "B"; "A"]); ("reverse_group", ["X"; "Y"; "X"])])
    3.

(** The same table without its [name] column. *)
Definition coins_unnamed : DataFrame string :=
  mkDataFrame (delete "name" (columns coins)) 3.

Section WithNum.
Context {num : Type} `{Float num}.

Definition square (lo hi : Z) : (num * num) * (num * num) :=
  ((of_int lo, of_int hi), (of_int lo, of_int hi)).

Definition autoscale_view (ws : list (Wedge string string num)) :=
  square 0 10.

(** The viewer after [__init__] and [load_csv], with the columns chosen. *)
Definition loaded (d : DataFrame string) (obv_col : string)
    : Viewer string string num :=
  mkViewer d "x" "y" obv_col "reverse" [] None false
           false None None None None [] 0.

(** A plotted viewer showing the square [lo, hi] x [lo, hi]. *)
Definition showing (d : DataFrame string) (lo hi : Z)
    : Viewer string string num :=
  mkViewer d "x" "y" "obverse" "reverse"
           [mkAxes false [] (of_int lo, of_int hi) (of_int lo, of_int hi)]
           (Some []) true false None None None None [] 0.

Definition at_point (b : Button) (x y : Z) : MouseEvent num :=
  mkMouseEvent b true (Some (of_int x)) (Some (of_int y)).

Definition outside (b : Button) : MouseEvent num :=
  mkMouseEvent b false None None.

Definition wedge_of_row (i : nat) : Wedge string string num :=
  mkWedge ("1", "1") lit_0_1 90 270 "red" "black" true (Some i).

Definition pick_row (b : Button) (i : nat) : PickEvent string string num :=
  mkPickEvent (at_point b 1 1) (wedge_of_row i).
End WithNum.

End Example.

(** ** The window from start-up on *)

Section Window.
Context {num : Type} `{Float num}.
Context {cell color : Type} `{Countable cell}.
Variable str : cell → string.
Variables Set1 Set2 : list color.
Variable autoscale_view : list (Wedge cell color num) → (num * num) * (num * num).

#[local] Abbreviation Viewer := (Viewer cell color num).

(** The attributes [__init__] sets: an empty [DataFrame], four empty
    combo boxes (their [currentText()] is the empty string), a figure
    without axes, no handler connected, [_suppress_next_drag = False];
    [self.patches] and the drag attributes do not exist yet. *)
Definition init : Viewer :=
  mkViewer (mkDataFrame ∅ 0) "" "" "" "" [] None false
           false None None None None [] 0.

(** [load_csv], [update_dropdowns] and the user's choices in the combo
    boxes reach the attributes modelled here only through [self.df] and
    the four current texts: this is any such change. *)
Definition reload (d : DataFrame cell) (x_col y_col obv_col rev_col : string)
    (v : Viewer) : Viewer :=
  mkViewer d x_col y_col obv_col rev_col (figure_axes v) (patches v)
           (connected v) (_suppress_next_drag v) (_is_dragging v)
           (_drag_start v) (_xlim_start v) (_ylim_start v) (shown v) (draws v).

(** What can happen to the window: the table or a selection changes, the
    plot button is clicked, or the canvas has an event for the handlers,
    which it delivers once [plot_coins] has connected them. *)
Inductive Action :=
  | Reload (d : DataFrame cell) (x_col y_col obv_col rev_col : string)
  | ClickPlot
  | Canvas (ev : @Event num cell color).

Definition act (v : Viewer) (a : Action) : Viewer :=
  match a with
  | Reload d x_col y_col obv_col rev_col => reload d x_col y_col obv_col rev_col v
  | ClickPlot => (plot_coins str Set1 Set2 autoscale_view v).1
  | Canvas ev => if connected v then dispatch str v ev else v
  end.

Definition session (actions : list Action) : Viewer := foldl act init actions.

(** matplotlib gives an event inside the axes both data coordinates. *)
Definition located (event : MouseEvent num) : Prop :=
  inaxes event = true → is_Some (xdata event) ∧ is_Some (ydata event).

Definition located_event (ev : @Event num cell color) : Prop :=
  match ev with
  | Scroll e | Press e | Motion e | Release e => located e
  | Pick p => located (mouseevent p)
  end.

Definition located_action (a : Action) : Prop :=
  match a with
  | Canvas ev => located_event ev
  | _ => True
  end.

(** What the handlers rely on: connected handlers find the axes of the
    figure, and a drag under way has its start point and snapshot. *)
Definition ready (v : Viewer) : Prop :=
  (connected v = true → figure_axes v ≠ [])
  ∧ (_is_dragging v = Some true →
     ∃ px py xs ys, _drag_start v = Some (Some px, Some py)
                    ∧ _xlim_start v = Some xs ∧ _ylim_start v = Some ys).

(** Two viewers with the same drag attributes and handler connection,
    the second with axes if the first has. *)
Definition same_drag (v w : Viewer) : Prop :=
  _is_dragging w = _is_dragging v ∧ _drag_start w = _drag_start v
  ∧ _xlim_start w = _xlim_start v ∧ _ylim_start w = _ylim_start v
  ∧ connected w = connected v
  ∧ (figure_axes v ≠ [] → figure_axes w ≠ []).

(** The glyph of row [i] as lines 115 to 128 build it. *)
Definition glyph (i : nat) (xi yi : cell) (c1 c2 : color)
    : Wedge cell color num * Wedge cell color num :=
  (mkWedge (xi, yi) radius 90 270 c1 "black" true (Some i),
   mkWedge (xi, yi) radius 270 90 c2 "black" true (Some i)).
End Window.

(** A drag gesture: a press, motions and a release, the last motion at
    [last]. *)
Definition drag {num cell color : Type} (press : MouseEvent num)
    (motions : list (MouseEvent num)) (last release : MouseEvent num)
    : list (@Event num cell color) :=
  Press press :: (Motion <$> motions) ++ [Motion last; Release release].

(** A rectangle with its bounds in order, and a viewer whose viewport and
    drag snapshot are, in exact arithmetic. *)
Definition ordered (vp : Rect Q) : Prop :=
  (vp.1.1 < vp.1.2 ∧ vp.2.1 < vp.2.2)%Q.

Definition well_ordered {cell color : Type} (v : Viewer cell color Q) : Prop :=
  (∀ ax, head (figure_axes v) = Some ax → ordered (xlim ax, ylim ax))
  ∧ (∀ xs ys, _xlim_start v = Some xs → _ylim_start v = Some ys → ordered (xs, ys)).

(** Width and height of a rectangle. *)
Definition extent {num : Type} `{Float num} (vp : Rect num) : num * num :=
  ((vp.1.2 - vp.1.1)%py, (vp.2.2 - vp.2.1)%py).

(** * Properties *)

(** ** The float instances *)

#[export] Instance binary64_laws : FloatLaws spec_float.
Proof.
  split. intros x. cbn.
  destruct x as [s|s| |s m e]; try destruct s; cbn; split; congruence.
Qed.

#[export] Instance exact_laws : FloatLaws Q.
Proof.
  split. intros x. cbn. rewrite negb_false_iff. apply Qeq_bool_iff.
Qed.

(** ** Running a method *)

Section Monad.
Context {S A B C : Type}.
Implicit Types (s : S).

Lemma bind_ret (a : A) (k : A → py S B) s : bind (ret a) k s = k a s.
Proof. reflexivity. Qed.

Lemma bind_raise (e : exn) (k : A → py S B) s : bind (raise e) k s = (s, inl e).
Proof. reflexivity. Qed.

Lemma bind_gets (f : S → A) (k : A → py S B) s : bind (gets f) k s = k (f s) s.
Proof. reflexivity. Qed.

Lemma bind_modify (f : S → S) (k : unit → py S B) s :
  bind (modify f) k s = k tt (f s).
Proof. reflexivity. Qed.

Lemma bind_assoc (c : py S A) (k : A → py S B) (k' : B → py S C) s :
  bind (bind c k) k' s = bind c (λ a, bind (k a) k') s.
Proof. unfold bind. destruct (c s) as [s' [e|a]]; reflexivity. Qed.

Lemma bind_or_raise_Some (e : exn) (a : A) (k : A → py S B) s :
  bind (or_raise e (Some a)) k s = k a s.
Proof. reflexivity. Qed.

Lemma bind_or_raise_None (e : exn) (k : A → py S B) s :
  bind (or_raise e None) k s = (s, inl e).
Proof. reflexivity. Qed.

Lemma bind_returns (c : py S A) (k : A → py S B) s s' a :
  c s = (s', inr a) → bind c k s = k a s'.
Proof. unfold bind. by intros ->. Qed.

Lemma bind_raises (c : py S A) (k : A → py S B) s s' e :
  c s = (s', inl e) → bind c k s = (s', inl e).
Proof. unfold bind. by intros ->. Qed.
End Monad.

Create Rewrite HintDb py.
#[global] Hint Rewrite @bind_ret @bind_raise @bind_gets @bind_modify
  @bind_assoc @bind_or_raise_Some @bind_or_raise_None : py.

(** Runs the method in the goal up to the next lookup it has to decide. *)
Ltac py_run := autorewrite with py; cbn beta iota.

(** ** Colour assignment *)

Section ColorAssignment.
Context {cell color : Type} `{Countable cell}.
Implicit Types (vals col : list cell) (seen : gset cell).
Implicit Types (palette base : list color) (m acc : gmap cell color).

Lemma elem_of_unique_from seen vals val :
  val ∈ unique_from seen vals ↔ val ∈ vals ∧ val ∉ seen.
Proof.
  revert seen. induction vals as [|v vals IH]; intros seen; simpl.
  - split; [by intros ?%elem_of_nil|by intros [?%elem_of_nil _]].
  - destruct (decide (v ∈ seen)) as [Hv|Hv].
    + rewrite IH, elem_of_cons. naive_solver.
    + rewrite !elem_of_cons, IH, elem_of_union, elem_of_singleton.
      destruct (decide (val = v)); naive_solver.
Qed.

Lemma NoDup_unique_from seen vals : NoDup (unique_from seen vals).
Proof.
  revert seen. induction vals as [|v vals IH]; intros seen; simpl.
  - constructor.
  - destruct (decide (v ∈ seen)); [apply IH|].
    constructor; [|apply IH].
    rewrite elem_of_unique_from. set_solver.
Qed.

Lemma unique_from_app seen l1 l2 :
  unique_from seen (l1 ++ l2)
  = unique_from seen l1 ++ unique_from (list_to_set l1 ∪ seen) l2.
Proof.
  revert seen. induction l1 as [|v l1 IH]; intros seen; simpl.
  - by rewrite (left_id_L ∅ (∪)).
  - destruct (decide (v ∈ seen)) as [Hin|Hin].
    + rewrite IH. do 2 f_equal. set_solver.
    + simpl. rewrite IH. do 3 f_equal. set_solver.
Qed.

Lemma elem_of_unique vals val : val ∈ unique vals ↔ val ∈ vals.
Proof. unfold unique. rewrite elem_of_unique_from. set_solver. Qed.

Lemma NoDup_unique vals : NoDup (unique vals).
Proof. apply NoDup_unique_from. Qed.

(** The value at index [i] of [unique vals] is the one whose first
    occurrence comes after those of exactly [i] other values. *)
Lemma unique_first_occurrence vals i val :
  unique vals !! i = Some val →
  ∃ k, vals !! k = Some val ∧ (val ∉ take k vals)
       ∧ length (unique (take k vals)) = i.
Proof.
  intros Hi.
  assert (val ∈ vals) as Hin
    by (apply elem_of_unique, list_elem_of_lookup; eauto).
  apply list_elem_of_split_l in Hin as (l1 & l2 & -> & Hl1).
  exists (length l1).
  rewrite take_app_length, list_lookup_middle by done.
  split_and!; [done..|].
  assert (∃ rest, unique (l1 ++ val :: l2) = unique l1 ++ val :: rest)
    as [rest Heq].
  { unfold unique. rewrite unique_from_app. simpl.
    destruct (decide (val ∈ list_to_set l1 ∪ ∅)); [set_solver|]. eauto. }
  pose proof (NoDup_unique (l1 ++ val :: l2)) as Hnd.
  rewrite Heq in Hi, Hnd.
  eapply NoDup_lookup; [exact Hnd| |exact Hi].
  by rewrite list_lookup_middle.
Qed.

Lemma color_palette_lookup_from base s n i :
  base ≠ [] →
  omap (λ i, base !! (i mod length base)) (seq s n) !! i
  = if decide (i < n) then base !! ((s + i) mod length base) else None.
Proof.
  intros Hbase. revert s i. induction n as [|n IH]; intros s i; simpl.
  - by destruct (decide (i < 0)); [lia|].
  - destruct (lookup_lt_is_Some_2 base (s mod length base)) as [c Hc].
    { apply Nat.mod_upper_bound. by destruct base. }
    rewrite Hc. destruct i as [|i]; simpl.
    + rewrite Nat.add_0_r. by rewrite Hc.
    + rewrite IH. replace (S s + i) with (s + S i) by lia.
      repeat case_decide; done || lia.
Qed.

Lemma color_palette_lookup base n i :
  base ≠ [] →
  color_palette base n !! i
  = if decide (i < n) then base !! (i mod length base) else None.
Proof. intros. unfold color_palette. by rewrite color_palette_lookup_from. Qed.

Lemma dict_enumerate_spec palette i vals acc :
  NoDup vals → i + length vals ≤ length palette →
  ∃ m, dict_enumerate palette i vals acc = inr m
       ∧ (∀ j val, vals !! j = Some val → m !! val = palette !! (i + j))
       ∧ (∀ val, val ∉ vals → m !! val = acc !! val).
Proof.
  revert i acc. induction vals as [|v vals IH]; intros i acc Hnd Hlen; simpl in *.
  - exists acc. split_and!; [done| |done]. intros j val; by rewrite lookup_nil.
  - apply NoDup_cons in Hnd as [Hv Hnd].
    destruct (lookup_lt_is_Some_2 palette i) as [c Hc]; [lia|].
    rewrite Hc.
    destruct (IH (S i) (<[v:=c]> acc) Hnd) as (m & -> & Hin & Hout); [lia|].
    exists m. split_and!; [done| |].
    + intros [|j] val Hj; simpl in Hj.
      * simplify_eq. rewrite Hout by done.
        by rewrite lookup_insert_eq, Nat.add_0_r.
      * rewrite (Hin j val Hj). f_equal. lia.
    + intros val Hval. apply not_elem_of_cons in Hval as [? ?].
      rewrite Hout by done. by rewrite lookup_insert_ne.
Qed.

Lemma length_color_palette base n : base ≠ [] → length (color_palette base n) = n.
Proof.
  intros Hbase.
  destruct (decide (length (color_palette base n) < n)) as [Hlt|Hge].
  - pose proof (color_palette_lookup base n (length (color_palette base n)) Hbase) as Hl.
    rewrite lookup_ge_None_2 in Hl by lia. case_decide; [|lia].
    symmetry in Hl. apply lookup_ge_None in Hl.
    pose proof (Nat.mod_upper_bound (length (color_palette base n)) (length base)).
    destruct base; [done|]. simpl in *. lia.
  - destruct (decide (length (color_palette base n) = n)); [done|].
    destruct (lookup_lt_is_Some_2 (color_palette base n) n) as [c Hc]; [lia|].
    rewrite color_palette_lookup in Hc by done. case_decide; [lia|done].
Qed.

(** What [color_map] computes: a dictionary from the distinct values to
    the palette, position by position. *)
Lemma color_map_spec base col :
  base ≠ [] →
  ∃ m, color_map base col = inr m
       ∧ (∀ i val, unique col !! i = Some val →
            m !! val = color_palette base (length (unique col)) !! i)
       ∧ (∀ val, val ∉ col → m !! val = None).
Proof.
  intros Hbase. unfold color_map.
  destruct (dict_enumerate_spec (color_palette base (length (unique col))) 0
              (unique col) ∅) as (m & Hm & Hin & Hout).
  - apply NoDup_unique.
  - by rewrite length_color_palette.
  - exists m. split_and!; [done|exact Hin|].
    intros val Hval. rewrite Hout, ?lookup_empty; [done|].
    by rewrite elem_of_unique.
Qed.
End ColorAssignment.

(** C5: the colour map gives the distinct values of a column, in the order
    of their first occurrence, the palette colours in order: the value at
    index [i] of [unique col] first occurs at a position before which
    exactly [i] other distinct values occur, and it is mapped to
    [palette[i]]; repeated occurrences take no palette slot ([unique col]
    has no duplicates) and each occurrence of a value resolves to the
    colour of its slot.  For the values A, B, A the palette is
    [red, blue] and the map is {A: red, B: blue}. *)
Theorem color_map_first_seen :
  (∀ (cell color : Type) `(Countable cell) (base : list color) (col : list cell),
     base ≠ [] →
     let palette := color_palette base (length (unique col)) in
     ∃ m, color_map base col = inr m
          ∧ NoDup (unique col)
          ∧ length palette = length (unique col)
          ∧ (∀ i val, unique col !! i = Some val →
               (∃ k, col !! k = Some val ∧ (val ∉ take k col)
                     ∧ length (unique (take k col)) = i)
               ∧ ∃ c, palette !! i = Some c ∧ m !! val = Some c)
          ∧ (∀ k val, col !! k = Some val →
               ∃ i c, unique col !! i = Some val ∧ palette !! i = Some c
                      ∧ m !! val = Some c))
  ∧ color_palette Example.Set1 (length (unique ["A"; "B"; "A"])) = ["red"; "blue"]
  ∧ color_map Example.Set1 ["A"; "B"; "A"]
    = inr (<["A" := "red"]> (<["B" := "blue"]> ∅)).
Proof.
  split; [|split; [reflexivity|]].
  - intros cell color ?? base col Hbase palette.
    destruct (color_map_spec base col Hbase) as (m & Hm & Hin & Hout).
    assert (∀ i val, unique col !! i = Some val →
              ∃ c, palette !! i = Some c ∧ m !! val = Some c) as Hslot.
    { intros i val Hi. rewrite (Hin i val Hi). fold palette.
      destruct (lookup_lt_is_Some_2 palette i) as [c Hc]; [|eauto].
      unfold palette. rewrite length_color_palette by done.
      by eapply lookup_lt_Some. }
    exists m. split_and!; [done|apply NoDup_unique|by apply length_color_palette| |].
    + intros i val Hi. split; [by apply unique_first_occurrence|by apply Hslot].
    + intros k val Hk.
      assert (val ∈ unique col) as [i Hi]%list_elem_of_lookup
        by (apply elem_of_unique, list_elem_of_lookup; eauto).
      destruct (Hslot i val Hi) as (c & ? & ?). eauto.
  - apply (f_equal inr). apply map_eq. intros k.
    destruct (decide (k = "A")) as [->|]; [reflexivity|].
    destruct (decide (k = "B")) as [->|]; [reflexivity|].
    cbn. by rewrite !lookup_insert_ne.
Qed.

Lemma color_map_first_seen_witness :
  Example.Set1 ≠ []
  ∧ ∃ m, color_map Example.Set1 ["A"; "B"; "A"] = inr m
         ∧ m !! "A" = Some "red" ∧ m !! "B" = Some "blue".
Proof.
  split; [done|].
  destruct color_map_first_seen as [Hgen _].
  destruct (Hgen string string _ _ Example.Set1 ["A"; "B"; "A"]) as (m & Hm & _ & _ & Hslot & _);
    [done|].
  exists m. split; [exact Hm|].
  split.
  - destruct (Hslot 0 "A" eq_refl) as (_ & c & Hc & ->). symmetry. exact Hc.
  - destruct (Hslot 1 "B" eq_refl) as (_ & c & Hc & ->). symmetry. exact Hc.
Defined.

(** ** Building the glyphs *)

Section Plot.
Context {num : Type} `{Float num}.
Context {cell color : Type} `{Countable cell}.
Variable str : cell → string.
Variables Set1 Set2 : list color.
Variable autoscale_view : list (Wedge cell color num) → (num * num) * (num * num).

#[local] Abbreviation Viewer := (Viewer cell color num).
#[local] Abbreviation Wedge := (Wedge cell color num).
Implicit Types (v : Viewer) (rows : list (cell * cell * cell * cell)).
Implicit Types (obv_map rev_map : gmap cell color).

(** The loop refines [wedge_pairs]: it appends those pairs to
    [self.patches] and their wedges to the axes. *)
Lemma add_wedges_spec obv_map rev_map rows i v ps0 ax rest ps :
  patches v = Some ps0 →
  figure_axes v = ax :: rest →
  wedge_pairs obv_map rev_map i rows = Some ps →
  add_wedges str obv_map rev_map i rows v
  = (set_patches (Some (ps0 ++ ps))
       (set_figure_axes
          (mkAxes (axison ax) (ax_patches ax ++ flat_wedges ps) (xlim ax) (ylim ax)
           :: rest) v),
     inr tt).
Proof.
  revert i v ps0 ax ps.
  induction rows as [|[[[xi yi] o] rv] rows IH]; intros i v ps0 ax ps Hps Hax Hw.
  - injection Hw as <-. cbn [add_wedges flat_wedges mbind list_bind ret].
    rewrite !app_nil_r, <- Hps. destruct ax.
    cbn [axison ax_patches xlim ylim]. rewrite <- Hax. by destruct v.
  - cbn [wedge_pairs] in Hw.
    destruct (obv_map !! o) as [c1|] eqn:Ho; [|done].
    destruct (rev_map !! rv) as [c2|] eqn:Hr; [|done].
    destruct (wedge_pairs obv_map rev_map (S i) rows) as [tl|] eqn:Htl; [|done].
    injection Hw as <-.
    set (w1 := mkWedge (xi, yi) radius 90 270 c1 "black" true (Some i)).
    set (w2 := mkWedge (xi, yi) radius 270 90 c2 "black" true (Some i)).
    set (v1 := set_patches (Some (ps0 ++ [(w1, w2)]))
                 (set_figure_axes (add_patch w2 (add_patch w1 ax) :: rest) v)).
    trans (add_wedges str obv_map rev_map (S i) rows v1).
    { cbn [add_wedges]. unfold bind, on_axes, modify.
      rewrite Ho, Hr. cbn [or_raise ret]. rewrite Hax.
      cbn [figure_axes set_figure_axes patches set_patches]. rewrite Hps.
      reflexivity. }
    rewrite (IH (S i) v1 (ps0 ++ [(w1, w2)]) (add_patch w2 (add_patch w1 ax)) tl);
      [|reflexivity..|exact Htl].
    unfold v1, set_patches, set_figure_axes, add_patch.
    cbn [df x_column y_column obv_column rev_column figure_axes patches
         connected _suppress_next_drag _is_dragging _drag_start _xlim_start
         _ylim_start shown draws axison ax_patches xlim ylim
         flat_wedges mbind list_bind fst snd].
    rewrite <- !app_assoc. reflexivity.
Qed.

Lemma all_selected_spec (a b c d : string) :
  all_selected [a; b; c; d] = true ↔ a ≠ "" ∧ b ≠ "" ∧ c ≠ "" ∧ d ≠ "".
Proof.
  unfold all_selected.
  destruct a, b, c, d; cbn; split; intros; destruct_and?; done.
Qed.

Lemma color_map_total (base : list color) (col : list cell) val :
  base ≠ [] → val ∈ col →
  ∃ m c, color_map base col = inr m ∧ m !! val = Some c.
Proof.
  intros Hbase Hval.
  destruct (color_map_spec base col Hbase) as (m & Hm & Hin & _).
  apply elem_of_unique, list_elem_of_lookup in Hval as [i Hi].
  destruct (lookup_lt_is_Some_2 (color_palette base (length (unique col))) i)
    as [c Hc].
  { rewrite length_color_palette by done. by eapply lookup_lt_Some. }
  exists m, c. split; [done|]. by rewrite (Hin i val Hi).
Qed.

Lemma wedge_pairs_is_Some obv_map rev_map i rows :
  (∀ xi yi o rv, (xi, yi, o, rv) ∈ rows →
     is_Some (obv_map !! o) ∧ is_Some (rev_map !! rv)) →
  is_Some (wedge_pairs (num:=num) obv_map rev_map i rows).
Proof.
  revert i. induction rows as [|[[[xi yi] o] rv] rows IH]; intros i Hrows.
  - by eexists.
  - destruct (Hrows xi yi o rv) as [[c1 Hc1] [c2 Hc2]]; [left|].
    destruct (IH (S i)) as [tl Htl].
    { intros xi' yi' o' rv' Hin. apply (Hrows xi' yi'). by right. }
    cbn [wedge_pairs]. rewrite Hc1, Hc2. cbn. rewrite Htl. by eexists.
Qed.

Lemma elem_of_zip4 (x y obv rev : list cell) xi yi o rv :
  (xi, yi, o, rv) ∈ zip4 x y obv rev → o ∈ obv ∧ rv ∈ rev.
Proof.
  unfold zip4. intros Hin. split.
  - apply elem_of_zip_l in Hin. by apply elem_of_zip_r in Hin.
  - by apply elem_of_zip_r in Hin.
Qed.

Lemma plot_coins_configured v x y obv rev :
  Set1 ≠ [] → Set2 ≠ [] →
  all_selected [x_column v; y_column v; obv_column v; rev_column v] = true →
  columns (df v) !! x_column v = Some x →
  columns (df v) !! y_column v = Some y →
  columns (df v) !! obv_column v = Some obv →
  columns (df v) !! rev_column v = Some rev →
  ∃ obv_map rev_map ps,
    color_map Set1 obv = inr obv_map
    ∧ color_map Set2 rev = inr rev_map
    ∧ wedge_pairs obv_map rev_map 0 (zip4 x y obv rev) = Some ps
    ∧ plot_coins str Set1 Set2 autoscale_view v = (plotted autoscale_view v ps, inr tt).
Proof.
  intros H1 H2 Hsel Hx Hy Hobv Hrev.
  destruct (color_map_spec Set1 obv H1) as (obv_map & Hom & _).
  destruct (color_map_spec Set2 rev H2) as (rev_map & Hrm & _).
  destruct (wedge_pairs_is_Some obv_map rev_map 0 (zip4 x y obv rev)) as [ps Hps].
  { intros xi yi o rv Hin. apply elem_of_zip4 in Hin as [Ho Hr].
    destruct (color_map_total Set1 obv o H1 Ho) as (m1 & c1 & Hm1 & Hc1).
    destruct (color_map_total Set2 rev rv H2 Hr) as (m2 & c2 & Hm2 & Hc2).
    rewrite Hom in Hm1. rewrite Hrm in Hm2. simplify_eq.
    split; by eexists. }
  exists obv_map, rev_map, ps. split_and!; [done..|].
  unfold plot_coins, df_getitem. py_run. rewrite Hsel. cbn [negb]. py_run.
  rewrite Hx. py_run. rewrite Hy. py_run. rewrite Hobv. py_run.
  rewrite Hrev. py_run. cbn zeta.
  change (dict_enumerate _ 0 (unique obv) ∅) with (color_map Set1 obv).
  change (dict_enumerate _ 0 (unique rev) ∅) with (color_map Set2 rev).
  rewrite Hom, Hrm. cbn [lift]. py_run.
  unfold on_axes at 1. py_run. cbn [figure_axes set_figure_axes].
  erewrite bind_returns;
    [|apply (add_wedges_spec _ _ _ _ _ []); [reflexivity|reflexivity|exact Hps]].
  unfold on_axes, draw. py_run. unfold modify. by destruct v.
Qed.

(** C6: with any of the four column selectors empty, [plot_coins]
    returns normally and leaves the viewer as it was: no glyph is built
    and the scene and the view limits are untouched. *)
Theorem plot_coins_not_configured v :
  x_column v = "" ∨ y_column v = "" ∨ obv_column v = "" ∨ rev_column v = "" →
  plot_coins str Set1 Set2 autoscale_view v = (v, inr tt).
Proof.
  intros Hunset. unfold plot_coins. py_run.
  destruct (all_selected [x_column v; y_column v; obv_column v; rev_column v])
    eqn:Hsel; [|reflexivity].
  apply all_selected_spec in Hsel. naive_solver.
Qed.

Lemma length_wedge_pairs obv_map rev_map i rows ps :
  wedge_pairs (num:=num) obv_map rev_map i rows = Some ps →
  length ps = length rows.
Proof.
  revert i ps. induction rows as [|[[[xi yi] o] rv] rows IH]; intros i ps Hps.
  - by injection Hps as <-.
  - cbn [wedge_pairs] in Hps.
    destruct (obv_map !! o), (rev_map !! rv); try done. cbn in Hps.
    destruct (wedge_pairs obv_map rev_map (S i) rows) as [tl|] eqn:Htl; [|done].
    injection Hps as <-. cbn. f_equal. by eapply IH.
Qed.

Lemma length_zip4 (x y obv rev : list cell) n :
  length x = n → length y = n → length obv = n → length rev = n →
  length (zip4 x y obv rev) = n.
Proof.
  unfold zip4. intros Hx Hy Ho Hr.
  rewrite !length_zip_with, Hx, Hy, Ho, Hr. lia.
Qed.

(** Rows that agree on position and reverse value give pairs that agree
    on the right wedge and on the shape of the left one. *)
Lemma wedge_pairs_reverse obv_map obv_map' rev_map i rows rows' ps ps' :
  Forall2 (λ a b, a.1.1 = b.1.1 ∧ a.2 = b.2) rows rows' →
  wedge_pairs (num:=num) obv_map rev_map i rows = Some ps →
  wedge_pairs (num:=num) obv_map' rev_map i rows' = Some ps' →
  Forall2 (λ g g', g.2 = g'.2 ∧ same_shape g.1 g'.1) ps ps'.
Proof.
  intros Hrows. revert i ps ps'.
  induction Hrows as [|[[[xi yi] o] rv] [[[xi' yi'] o'] rv'] rows rows' [Hxy Hrv] _ IH];
    intros i ps ps' Hps Hps'.
  - injection Hps as <-. injection Hps' as <-. constructor.
  - cbn in Hxy, Hrv. simplify_eq. cbn [wedge_pairs] in Hps, Hps'.
    destruct (obv_map !! o) as [c1|]; [|done].
    destruct (obv_map' !! o') as [c1'|]; [|done].
    destruct (rev_map !! rv') as [c2|]; [|done]. cbn in Hps, Hps'.
    destruct (wedge_pairs obv_map rev_map (S i) rows) as [tl|] eqn:Htl; [|done].
    destruct (wedge_pairs obv_map' rev_map (S i) rows') as [tl'|] eqn:Htl'; [|done].
    injection Hps as <-. injection Hps' as <-.
    constructor; [|by eapply IH].
    split; [reflexivity|]. by repeat split.
Qed.

Lemma zip4_obverse (x y obv obv' rev : list cell) :
  length obv = length obv' →
  Forall2 (λ a b, a.1.1 = b.1.1 ∧ a.2 = b.2)
          (zip4 x y obv rev) (zip4 x y obv' rev).
Proof.
  unfold zip4. revert y obv obv' rev.
  induction x as [|xi x IH]; intros [|yi y] [|o obv] [|o' obv'] [|rv rev] Hlen;
    simplify_eq/=; try constructor; [done|by apply IH].
Qed.

(** C8: after a plot, choosing another obverse column and plotting again
    over the same table and reverse column yields, glyph by glyph, the
    same right (reverse) wedge, colour included, and a left wedge that
    differs at most in its fill colour. *)
Theorem rebuild_obverse_keeps_reverse v obv_col' x y obv obv' rev :
  Set1 ≠ [] → Set2 ≠ [] → df_wf (df v) →
  all_selected [x_column v; y_column v; obv_column v; rev_column v] = true →
  obv_col' ≠ "" →
  columns (df v) !! x_column v = Some x →
  columns (df v) !! y_column v = Some y →
  columns (df v) !! obv_column v = Some obv →
  columns (df v) !! rev_column v = Some rev →
  columns (df v) !! obv_col' = Some obv' →
  ∃ v1 v2 ps ps',
    plot_coins str Set1 Set2 autoscale_view v = (v1, inr tt)
    ∧ patches v1 = Some ps
    ∧ plot_coins str Set1 Set2 autoscale_view (set_obv_column obv_col' v1)
      = (v2, inr tt)
    ∧ patches v2 = Some ps'
    ∧ length ps = nrows (df v)
    ∧ Forall2 (λ g g', g.2 = g'.2 ∧ same_shape g.1 g'.1) ps ps'.
Proof.
  intros H1 H2 Hwf Hsel Hcol' Hx Hy Hobv Hrev Hobv'.
  destruct (plot_coins_configured v x y obv rev)
    as (obv_map & rev_map & ps & Hom & Hrm & Hps & Hplot); [done..|].
  apply all_selected_spec in Hsel as (? & ? & ? & ?).
  destruct (plot_coins_configured
              (set_obv_column obv_col' (plotted autoscale_view v ps)) x y obv' rev)
    as (obv_map' & rev_map' & ps' & Hom' & Hrm' & Hps' & Hplot');
    [done|done|by apply all_selected_spec|by destruct v..|].
  rewrite Hrm in Hrm'. injection Hrm' as <-.
  exists (plotted autoscale_view v ps),
         (plotted autoscale_view
            (set_obv_column obv_col' (plotted autoscale_view v ps)) ps'),
         ps, ps'.
  split_and!; [done|by destruct v|done|by destruct v| |].
  - rewrite (length_wedge_pairs _ _ _ _ _ Hps).
    apply length_zip4; by eapply Hwf.
  - eapply wedge_pairs_reverse; [|exact Hps|exact Hps'].
    apply zip4_obverse.
    rewrite (Hwf _ _ Hobv). symmetry. exact (Hwf _ _ Hobv').
Qed.
End Plot.

(** ** The mouse handlers *)

Section Handlers.
Context {num : Type} `{Float num}.
Context {cell color : Type}.
Variable str : cell → string.

#[local] Abbreviation Viewer := (Viewer cell color num).
#[local] Abbreviation Event := (@Event num cell color).
Implicit Types (v : Viewer) (event : MouseEvent num) (ax : Axes cell color num).

Lemma run_app (evs evs' : list Event) v : run str (evs ++ evs') v = run str evs' (run str evs v).
Proof. apply foldl_app. Qed.

Lemma run_cons (ev : Event) evs v : run str (ev :: evs) v = run str evs (dispatch str v ev).
Proof. reflexivity. Qed.

(** *** Scrolling *)

Lemma on_scroll_valid v event ax rest xd yd :
  figure_axes v = ax :: rest →
  xdata event = Some xd → ydata event = Some yd →
  let vp := zoom_centred (xlim ax, ylim ax) xd yd (scale_factor (button event)) in
  on_scroll event v
  = (set_draws (S (draws v))
       (set_figure_axes (set_ylim vp.2 (set_xlim vp.1 ax) :: rest) v),
     inr tt).
Proof.
  intros Hax Hx Hy vp. unfold on_scroll, axes0. py_run.
  rewrite Hax, Hx, Hy. cbn [head]. py_run.
  destruct ax as [on ps [xl xr] [yb yt]]. cbn [xlim ylim].
  unfold on_axes, draw_idle, draw. py_run. unfold modify.
  cbn [figure_axes set_figure_axes]. rewrite Hax. reflexivity.
Qed.

Lemma viewport_scroll v event ax rest xd yd :
  figure_axes v = ax :: rest →
  xdata event = Some xd → ydata event = Some yd →
  viewport (dispatch str v (Scroll event))
  = Some (zoom_centred (xlim ax, ylim ax) xd yd (scale_factor (button event))).
Proof.
  intros Hax Hx Hy. unfold dispatch. cbn [handler].
  by rewrite (on_scroll_valid v event ax rest xd yd).
Qed.

(** *** Press, motion, release *)

Lemma on_press_suppressed v event :
  _suppress_next_drag v = true →
  on_press event v = (set_suppress_next_drag false v, inr tt).
Proof. intros Hs. unfold on_press. py_run. by rewrite Hs. Qed.

Lemma on_press_starts v event ax rest :
  _suppress_next_drag v = false →
  button event = BInt 1 → inaxes event = true →
  figure_axes v = ax :: rest →
  on_press event v
  = (set_ylim_start (Some (ylim ax))
       (set_xlim_start (Some (xlim ax))
          (set_drag_start (Some (xdata event, ydata event))
             (set_is_dragging (Some true) v))),
     inr tt).
Proof.
  intros Hs Hb Hin Hax. unfold on_press, axes0. py_run.
  rewrite Hs, Hb, Hin. cbn [button_is_int]. rewrite bool_decide_eq_true_2 by done.
  cbn [andb].
  py_run. cbn [figure_axes set_drag_start set_is_dragging]. rewrite Hax.
  cbn [head]. py_run. reflexivity.
Qed.

Lemma on_motion_ignored v event :
  idle v ∨ inaxes event = false
  ∨ truthy_opt (xdata event) = false ∨ truthy_opt (ydata event) = false →
  on_motion event v = (v, inr tt).
Proof.
  unfold idle, on_motion. py_run. intros [-> | [-> | [-> | ->]]];
    rewrite ?andb_false_r; reflexivity.
Qed.

Lemma on_motion_drag v event px py snapshot qx qy ax rest :
  dragging_from v px py snapshot → figure_axes v = ax :: rest →
  inside event qx qy → truthy qx = true → truthy qy = true →
  let vp := pan_back snapshot (qx - px)%py (qy - py)%py in
  on_motion event v
  = (set_draws (S (draws v))
       (set_figure_axes (set_ylim vp.2 (set_xlim vp.1 ax) :: rest) v),
     inr tt).
Proof.
  intros (Hd & Hst & Hxs & Hys & _) Hax (Hin & Hx & Hy) Hqx Hqy vp.
  unfold on_motion, getattr. py_run.
  rewrite Hd, Hin, Hx, Hy. cbn [truthy_opt]. rewrite Hqx, Hqy.
  cbn [default from_option id andb].
  py_run. rewrite Hst. py_run. cbn [fst snd sub_opt]. py_run.
  rewrite Hxs. py_run. rewrite Hys. py_run.
  unfold on_axes, draw_idle, draw. py_run. unfold modify.
  cbn [figure_axes set_figure_axes]. rewrite Hax. reflexivity.
Qed.

Lemma motion_keeps_dragging v event px py snapshot :
  dragging_from v px py snapshot →
  dragging_from (dispatch str v (Motion event)) px py snapshot.
Proof.
  intros Hdrag. unfold dispatch. cbn [handler].
  destruct (figure_axes v) as [|ax rest] eqn:Hax; [by destruct Hdrag as (_&_&_&_&?)|].
  destruct (inaxes event) eqn:Hin;
    [|by rewrite on_motion_ignored by (rewrite Hin; tauto)].
  destruct (xdata event) as [qx|] eqn:Hx;
    [|by rewrite on_motion_ignored by (rewrite Hx; cbn; tauto)].
  destruct (ydata event) as [qy|] eqn:Hy;
    [|by rewrite on_motion_ignored by (rewrite Hy; cbn; tauto)].
  destruct (truthy qx) eqn:Hqx;
    [|by rewrite on_motion_ignored by (rewrite Hx; cbn; tauto)].
  destruct (truthy qy) eqn:Hqy;
    [|by rewrite on_motion_ignored by (rewrite Hy; cbn; tauto)].
  rewrite (on_motion_drag v event px py snapshot qx qy ax rest); [|done..].
  destruct Hdrag as (? & ? & ? & ? & ?). by repeat split.
Qed.

Lemma motions_keep_dragging v (events : list (MouseEvent num)) px py snapshot :
  dragging_from v px py snapshot →
  dragging_from (run str (Motion <$> events) v) px py snapshot.
Proof.
  revert v. induction events as [|event events IH]; intros v Hdrag; [done|].
  cbn [fmap list_fmap]. rewrite run_cons. by apply IH, motion_keeps_dragging.
Qed.

Lemma viewport_release v event :
  viewport (dispatch str v (Release event)) = viewport v.
Proof. reflexivity. Qed.

(** A drag whose last motion has two non-zero coordinates shows the
    snapshot moved back by the distance from the press point, however
    many motions came before. *)
Lemma drag_pans_from_snapshot v ax rest press px py
    (events : list (MouseEvent num)) last qx qy release :
  _suppress_next_drag v = false → figure_axes v = ax :: rest →
  button press = BInt 1 → inside press px py →
  inside last qx qy → truthy qx = true → truthy qy = true →
  viewport (run str (Press press :: (Motion <$> events)
                     ++ [Motion last; Release release]) v)
  = Some (pan_back (xlim ax, ylim ax) (qx - px)%py (qy - py)%py).
Proof.
  intros Hs Hax Hb (Hin & Hpx & Hpy) Hlast Hqx Hqy.
  rewrite run_cons, run_app. cbn [run foldl]. rewrite viewport_release.
  set (v1 := dispatch str v (Press press)).
  assert (dragging_from v1 px py (xlim ax, ylim ax)) as Hdrag.
  { unfold v1, dispatch. cbn [handler].
    rewrite (on_press_starts v press ax rest) by done.
    rewrite Hpx, Hpy. repeat split; cbn; by rewrite ?Hax. }
  apply (motions_keep_dragging _ events) in Hdrag.
  set (v2 := run str (Motion <$> events) v1) in *.
  destruct (figure_axes v2) as [|ax2 rest2] eqn:Hax2;
    [by destruct Hdrag as (_&_&_&_&?)|].
  unfold dispatch. cbn [handler].
  rewrite (on_motion_drag v2 last px py _ qx qy ax2 rest2) by done.
  reflexivity.
Qed.

(** C10: a motion event with an x or y data coordinate equal to 0 leaves
    the viewer, and so the viewport, as it is, drag or no drag, exactly
    as a motion event outside the axes does. *)
Theorem motion_at_zero_ignored `{!FloatLaws num} v event x :
  xdata event = Some x ∨ ydata event = Some x →
  feq x (of_int 0) →
  dispatch str v (Motion event) = v
  ∧ dispatch str v (Motion (mkMouseEvent (button event) false None None)) = v.
Proof.
  intros Hcoord Hzero%truthy_zero. unfold dispatch. cbn [handler]. split.
  - rewrite on_motion_ignored; [done|].
    destruct Hcoord as [-> | ->]; cbn [truthy_opt]; tauto.
  - rewrite on_motion_ignored; [done|]. cbn. tauto.
Qed.

(** A drag whose last motion has a zero coordinate ends as if that motion
    had not been delivered. *)
Lemma drag_ending_at_zero `{!FloatLaws num} v (events : list Event)
    last release x :
  xdata last = Some x ∨ ydata last = Some x →
  feq x (of_int 0) →
  run str (events ++ [Motion last; Release release]) v
  = run str (events ++ [Release release]) v.
Proof.
  intros Hcoord Hzero%truthy_zero. rewrite !run_app, run_cons. f_equal.
  unfold dispatch. cbn [handler]. rewrite on_motion_ignored; [done|].
  destruct Hcoord as [-> | ->]; cbn [truthy_opt]; tauto.
Qed.

(** *** Picking *)

Lemma on_click_other_button v (event : PickEvent cell color num) :
  button (mouseevent event) ≠ BInt 1 → on_click str event v = (v, inr tt).
Proof.
  intros Hb. unfold on_click.
  destruct (button (mouseevent event)) as [n| |]; cbn [button_is_int negb];
    try reflexivity.
  rewrite bool_decide_eq_false_2 by congruence. reflexivity.
Qed.

(** A primary-button pick sets the flag first; whatever happens next, it
    changes nothing else but the list of messages shown. *)
Lemma on_click_primary v (event : PickEvent cell color num) :
  button (mouseevent event) = BInt 1 →
  ∃ res shown',
    on_click str event v
    = (set_shown shown' (set_suppress_next_drag true v), res).
Proof.
  intros Hb. unfold on_click. rewrite Hb. cbn [button_is_int].
  rewrite bool_decide_eq_true_2 by done. cbn [negb]. py_run.
  assert (∀ e, (set_suppress_next_drag true v, @inl exn unit e)
               = (set_shown (shown v) (set_suppress_next_drag true v), inl e))
    as Hraise by (intros; by destruct v).
  destruct (gid (artist event)) as [ind|]; py_run; [|by eauto].
  cbn [df set_suppress_next_drag].
  destruct (iloc (df v) ind) as [row|]; py_run; [|by eauto].
  destruct (row !! "name"); py_run; [|by eauto].
  destruct (row !! "obverse_group"); py_run; [|by eauto].
  destruct (row !! "reverse_group"); py_run; [|by eauto].
  unfold information, modify. cbn [shown set_suppress_next_drag]. eauto.
Qed.

(** C4, as amended: after a primary-button pick (and likewise when the
    press is the one of the picking click itself), the next press only
    clears the suppression flag: it starts no drag and records no
    snapshot, and the axes keep their limits.  When no drag was under way
    at the pick, the motion events that follow change nothing either, so
    the viewport is still the one before the pick. *)
Theorem press_after_pick_dropped v (pick : PickEvent cell color num) press
    (motions : list (MouseEvent num)) :
  button (mouseevent pick) = BInt 1
  ∨ button press = button (mouseevent pick) →
  let v' := run str [Pick pick; Press press] v in
  _suppress_next_drag v' = false
  ∧ _is_dragging v' = _is_dragging v
  ∧ _drag_start v' = _drag_start v
  ∧ _xlim_start v' = _xlim_start v
  ∧ _ylim_start v' = _ylim_start v
  ∧ figure_axes v' = figure_axes v
  ∧ (idle v →
     run str ([Pick pick; Press press] ++ (Motion <$> motions)) v = v'
     ∧ viewport (run str ([Pick pick; Press press] ++ (Motion <$> motions)) v)
       = viewport v).
Proof.
  intros Hgesture v'.
  assert (∃ shown', v' = set_suppress_next_drag false (set_shown shown' v))
    as [shown' Hv'].
  { unfold v', run, dispatch. cbn [foldl handler].
    destruct (decide (button (mouseevent pick) = BInt 1)) as [Hb|Hb].
    - destruct (on_click_primary v pick Hb) as (res & shown' & ->).
      cbn [fst]. rewrite on_press_suppressed by done.
      exists shown'. by destruct v.
    - destruct Hgesture as [?|Hsame]; [done|].
      rewrite on_click_other_button by done. cbn [fst].
      exists (shown v). unfold on_press. py_run.
      destruct (_suppress_next_drag v) eqn:Hs; [by destruct v|].
      rewrite Hsame.
      destruct (button (mouseevent pick)) as [n| |]; cbn [button_is_int andb];
        [|destruct v; cbn in *; by subst..].
      rewrite bool_decide_eq_false_2 by congruence.
      destruct v; cbn in *; by subst. }
  split_and!; try (rewrite Hv'; by destruct v).
  intros Hidle.
  assert (∀ w : Viewer, idle w → run str (Motion <$> motions) w = w) as Hmotions.
  { induction motions as [|m ms IH]; intros w Hw; [done|].
    cbn [fmap list_fmap]. rewrite run_cons. unfold dispatch at 1. cbn [handler].
    rewrite on_motion_ignored by tauto. by apply IH. }
  rewrite run_app. fold v'. rewrite Hmotions.
  - split; [done|]. rewrite Hv'. by destruct v.
  - rewrite Hv'. by destruct v.
Qed.

(** C9, as amended: on a primary-button pick of a wedge of row [i] of the
    loaded table, the handler first sets the suppression flag; it then
    shows the name and the two groups of row [i] and returns if the table
    has the columns [name], [obverse_group] and [reverse_group], and
    raises [KeyError] for the first of them that is missing otherwise
    (in the order name, obverse_group, reverse_group of lines 148 to
    150), with the flag left set.  It returns without raising exactly
    when the three columns are there. *)
Theorem on_click_needs_columns v (event : PickEvent cell color num) i :
  df_wf (df v) →
  button (mouseevent event) = BInt 1 →
  gid (artist event) = Some i → i < nrows (df v) →
  let present key := is_Some (columns (df v) !! key) in
  let cell_of key := columns (df v) !! key ≫= (.!! i) in
  ((∃ v', on_click str event v = (v', inr tt))
   ↔ present "name" ∧ present "obverse_group" ∧ present "reverse_group")
  ∧ (present "name" ∧ present "obverse_group" ∧ present "reverse_group" →
     ∃ name og rg,
       cell_of "name" = Some name ∧ cell_of "obverse_group" = Some og
       ∧ cell_of "reverse_group" = Some rg
       ∧ on_click str event v
         = (set_shown
              (("Name: " ++ str name ++ nl
                ++ "Obverse Group: " ++ str og ++ nl
                ++ "Reverse Group: " ++ str rg)%string :: shown v)
              (set_suppress_next_drag true v),
            inr tt))
  ∧ (¬ (present "name" ∧ present "obverse_group" ∧ present "reverse_group") →
     ∃ key, key ∈ ["name"; "obverse_group"; "reverse_group"]
            ∧ columns (df v) !! key = None
            ∧ on_click str event v
              = (set_suppress_next_drag true v, inl (KeyError key)))
  ∧ (¬ present "name" →
     on_click str event v
     = (set_suppress_next_drag true v, inl (KeyError "name")))
  ∧ (present "name" → ¬ present "obverse_group" →
     on_click str event v
     = (set_suppress_next_drag true v, inl (KeyError "obverse_group")))
  ∧ (present "name" → present "obverse_group" → ¬ present "reverse_group" →
     on_click str event v
     = (set_suppress_next_drag true v, inl (KeyError "reverse_group"))).
Proof.
  intros Hwf Hb Hgid Hi present cell_of.
  assert (∀ key, present key → ∃ c, cell_of key = Some c) as Hcell.
  { intros key [col Hcol]. unfold cell_of. rewrite Hcol. cbn.
    apply lookup_lt_is_Some_2. by rewrite (Hwf _ _ Hcol). }
  assert (∀ key, ¬ present key → cell_of key = None) as Hnocell.
  { intros key Hkey. unfold cell_of, present in *.
    destruct (columns (df v) !! key); [|done]. by destruct Hkey. }
  assert (∀ key, ¬ present key → columns (df v) !! key = None) as Hnone.
  { intros key Hkey. by apply eq_None_not_Some. }
  assert (∃ row, iloc (df v) i = Some row ∧ ∀ key, row !! key = cell_of key)
    as (row & Hrow & Hlook).
  { unfold iloc. rewrite decide_True by done. eexists. split; [done|].
    intros key. apply lookup_omap. }
  unfold on_click. rewrite Hb. cbn [button_is_int].
  rewrite bool_decide_eq_true_2 by done. cbn [negb]. py_run.
  rewrite Hgid. py_run. cbn [df set_suppress_next_drag]. rewrite Hrow. py_run.
  rewrite !Hlook.
  destruct (decide (present "name")) as [Hn|Hn].
  2:{ rewrite (Hnocell _ Hn). py_run. split_and!.
      - split; [by intros [? ?]|tauto].
      - tauto.
      - intros _. exists "name". split_and!; [set_solver|by apply Hnone|done].
      - done.
      - tauto.
      - tauto. }
  destruct (Hcell _ Hn) as [name ->]. py_run.
  destruct (decide (present "obverse_group")) as [Ho|Ho].
  2:{ rewrite (Hnocell _ Ho). py_run. split_and!.
      - split; [by intros [? ?]|tauto].
      - tauto.
      - intros _. exists "obverse_group".
        split_and!; [set_solver|by apply Hnone|done].
      - tauto.
      - done.
      - tauto. }
  destruct (Hcell _ Ho) as [og ->]. py_run.
  destruct (decide (present "reverse_group")) as [Hr|Hr].
  2:{ rewrite (Hnocell _ Hr). py_run. split_and!.
      - split; [by intros [? ?]|tauto].
      - tauto.
      - intros _. exists "reverse_group".
        split_and!; [set_solver|by apply Hnone|done].
      - tauto.
      - tauto.
      - done. }
  destruct (Hcell _ Hr) as [rg ->]. py_run.
  unfold information, modify. cbn [shown set_suppress_next_drag].
  split_and!.
  - split; [done|]. intros _. eauto.
  - intros _. exists name, og, rg. done.
  - tauto.
  - tauto.
  - tauto.
  - tauto.
Qed.
End Handlers.

(** ** The viewport formulas in exact arithmetic *)

Section Exact.
Implicit Types (vp : Rect Q) (cx cy : Q).

(** Scaling about the cursor and re-centring on it agree only for a
    cursor at the centre. *)
Lemma zoom_centred_fixes_cursor_iff vp cx cy :
  rect_eq (zoom_centred vp cx cy (of_int 1 / lit_1_2)%py)
          (zoomAround vp cx cy (of_int 1 / lit_1_2)%py)
  ↔ (cx == (centre vp).1 ∧ cy == (centre vp).2)%Q.
Proof.
  destruct vp as [[xl xr] [yb yt]].
  unfold rect_eq, zoom_centred, zoomAround, centre; cbn.
  assert (1 / (6 # 5) == 5 # 6)%Q as -> by reflexivity.
  unfold Qdiv. change (/ inject_Z 2)%Q with (1 # 2)%Q.
  split.
  - intros (Hx & _ & Hy & _). split; lra.
  - intros [Hx Hy]. split_and!; lra.
Qed.

(** With factor 1 the size stays and the cursor becomes the centre. *)
Lemma zoom_centred_one vp cx cy :
  let vp' := zoom_centred vp cx cy (of_int 1) in
  (vp'.1.2 - vp'.1.1 == vp.1.2 - vp.1.1
   ∧ vp'.2.2 - vp'.2.1 == vp.2.2 - vp.2.1
   ∧ (centre vp').1 == cx ∧ (centre vp').2 == cy)%Q
  ∧ (rect_eq vp' vp ↔ (cx == (centre vp).1 ∧ cy == (centre vp).2)%Q).
Proof.
  destruct vp as [[xl xr] [yb yt]].
  unfold rect_eq, zoom_centred, centre; cbn.
  unfold Qdiv. change (/ inject_Z 2)%Q with (1 # 2)%Q.
  change (inject_Z 1) with 1%Q.
  split; [split_and!; lra|].
  split.
  - intros (Hx & _ & Hy & _). split; lra.
  - intros [Hx Hy]. split_and!; lra.
Qed.
End Exact.

(** ** Scrolling: what the zoom does *)

Section Scrolling.
Context {num : Type} `{Float num}.
Context {cell color : Type}.
Variable str : cell → string.
Implicit Types (v : Viewer cell color num) (event : MouseEvent num).

(** C1, as amended: a wheel-up event with cursor coordinates gives the
    viewport of [1 / 1.2] times the old width and height with the cursor
    at its centre: [xMin = cx - (xMax_old - xMin_old) * factor / 2],
    [xMax = cx + (xMax_old - xMin_old) * factor / 2], likewise in y.  In
    exact arithmetic these are the bounds that keep the point under the
    cursor in place if and only if the cursor is at the centre of the old
    viewport. *)
Theorem scroll_up_centres_on_cursor v event ax rest xd yd :
  figure_axes v = ax :: rest →
  button event = BStr "up" →
  xdata event = Some xd → ydata event = Some yd →
  viewport (dispatch str v (Scroll event))
  = Some (zoom_centred (xlim ax, ylim ax) xd yd (of_int 1 / lit_1_2)%py)
  ∧ ∀ (vp : Rect Q) (cx cy : Q),
      rect_eq (zoom_centred vp cx cy (of_int 1 / lit_1_2)%py)
              (zoomAround vp cx cy (of_int 1 / lit_1_2)%py)
      ↔ (cx == (centre vp).1 ∧ cy == (centre vp).2)%Q.
Proof.
  intros Hax Hb Hx Hy. split; [|apply zoom_centred_fixes_cursor_iff].
  rewrite (viewport_scroll str v event ax rest xd yd) by done.
  by rewrite Hb.
Qed.

(** C2, as amended: a scroll event with cursor coordinates re-centres
    the viewport on the cursor and scales its width and height by the
    factor of the wheel signal: [1 / 1.2] for up, [1.2] for down, [1] for
    anything else.  In exact arithmetic factor 1 keeps the width and the
    height and makes the cursor the centre, so the viewport stays as it
    was only for a cursor at its centre. *)
Theorem scroll_applies_factor v event ax rest xd yd :
  figure_axes v = ax :: rest →
  xdata event = Some xd → ydata event = Some yd →
  viewport (dispatch str v (Scroll event))
  = Some (zoom_centred (xlim ax, ylim ax) xd yd (scale_factor (button event)))
  ∧ scale_factor (num:=num) (BStr "up") = (of_int 1 / lit_1_2)%py
  ∧ scale_factor (num:=num) (BStr "down") = lit_1_2
  ∧ (button event ≠ BStr "up" → button event ≠ BStr "down" →
     scale_factor (button event) = of_int 1)
  ∧ ∀ (vp : Rect Q) (cx cy : Q),
      let vp' := zoom_centred vp cx cy (of_int 1) in
      (vp'.1.2 - vp'.1.1 == vp.1.2 - vp.1.1
       ∧ vp'.2.2 - vp'.2.1 == vp.2.2 - vp.2.1
       ∧ (centre vp').1 == cx ∧ (centre vp').2 == cy)%Q
      ∧ (rect_eq vp' vp ↔ (cx == (centre vp).1 ∧ cy == (centre vp).2)%Q).
Proof.
  intros Hax Hx Hy.
  split_and!; [by apply (viewport_scroll str v event ax rest)|done|done|
               |apply zoom_centred_one].
  intros Hup Hdown. unfold scale_factor.
  destruct (button event) as [n|s|]; cbn [button_is_str]; try reflexivity.
  rewrite !bool_decide_eq_false_2 by congruence. reflexivity.
Qed.
End Scrolling.

(** ** The session, run *)

Module Session.
Import Example.

#[local] Abbreviation b64 := spec_float.
#[local] Abbreviation Viewer64 := (Viewer string string spec_float).
#[local] Abbreviation ViewerQ := (Viewer string string Q).

Lemma coins_wf : df_wf coins.
Proof. unfold df_wf. refine (bool_decide_unpack _ _). vm_compute. exact I. Qed.

Implicit Types (vp : Rect b64).

(** C1 as stated fails: on the viewport [0, 10] x [0, 10] a wheel-up
    event at the cursor (2, 2) does not give the bounds
    [cx - (cx - bound) * factor]; in exact arithmetic the handler gives
    [-13/6, 37/6] on both axes where the formula asks for [1/3, 26/3],
    and the doubles the interpreter computes differ in the same way. *)
Lemma scroll_up_moves_cursor_point :
  (∃ vp' : Rect Q,
     viewport (dispatch id (showing coins 0 10 : ViewerQ)
                 (Scroll (at_point (BStr "up") 2 2))) = Some vp'
     ∧ rect_eq vp' ((-13 # 6, 37 # 6), (-13 # 6, 37 # 6))%Q
     ∧ rect_eq (zoomAround (square 0 10 : Rect Q) 2%Q 2%Q
                          (of_int 1 / lit_1_2)%py)
               ((1 # 3, 26 # 3), (1 # 3, 26 # 3))%Q
     ∧ ¬ rect_eq vp' (zoomAround (square 0 10) 2%Q 2%Q
                        (of_int 1 / lit_1_2)%py))
  ∧ (∃ vp',
       viewport (dispatch id (showing coins 0 10 : Viewer64)
                   (Scroll (at_point (BStr "up") 2 2))) = Some vp'
       ∧ ¬ rect_eq vp' (zoomAround (square 0 10 : Rect b64) (of_int 2) (of_int 2)
                          (of_int 1 / lit_1_2)%py)).
Proof.
  split.
  - eexists. split; [vm_compute; reflexivity|].
    split_and!; [by vm_compute..|].
    intros [Hc _]. vm_compute in Hc. discriminate.
  - eexists. split; [vm_compute; reflexivity|].
    intros [Hc _]. vm_compute in Hc. discriminate.
Qed.

(** C2 as stated fails: a wheel signal that is neither up nor down, at
    the cursor (2, 2) on the viewport [0, 10] x [0, 10], moves the
    viewport to [-3, 7] x [-3, 7]. *)
Lemma scroll_other_moves_viewport :
  viewport (showing coins 0 10 : Viewer64) = Some (square 0 10)
  ∧ viewport (dispatch id (showing coins 0 10 : Viewer64)
                (Scroll (at_point (BStr "other") 2 2)))
    = Some (square (-3) 7)
  ∧ ¬ rect_eq (square (-3) 7 : Rect b64) (square 0 10)
  ∧ viewport (dispatch id (showing coins 0 10 : Viewer64)
                (Scroll (at_point (BStr "other") 2 2)))
    ≠ viewport (showing coins 0 10 : Viewer64).
Proof.
  split_and!; [by vm_compute..| |by vm_compute].
  intros [Hc _]. vm_compute in Hc. discriminate.
Qed.

(** C7: on the viewport [0, 10] x [0, 10] a wheel-up event at (5, 5)
    gives, in exact arithmetic, [5/6, 55/6] on both axes, that is
    [5 - 5/1.2, 5 + 5/1.2]; the doubles the interpreter computes are
    within 1e-14 of these bounds (0.833333333333333 and
    9.166666666666668). *)
Theorem scroll_up_at_centre :
  (∃ vp' : Rect Q,
     viewport (dispatch id (showing coins 0 10 : ViewerQ)
                 (Scroll (at_point (BStr "up") 5 5))) = Some vp'
     ∧ rect_eq vp' ((5 # 6, 55 # 6), (5 # 6, 55 # 6))%Q
     ∧ rect_eq vp' ((5 - 5 / (12 # 10), 5 + 5 / (12 # 10)),
                    (5 - 5 / (12 # 10), 5 + 5 / (12 # 10)))%Q)
  ∧ (∃ lo hi qlo qhi,
       viewport (dispatch id (showing coins 0 10 : Viewer64)
                   (Scroll (at_point (BStr "up") 5 5)))
       = Some ((lo, hi), (lo, hi))
       ∧ b64_to_Q lo = Some qlo ∧ b64_to_Q hi = Some qhi
       ∧ (Qabs (qlo - (5 # 6)) < 1 # 100000000000000)%Q
       ∧ (Qabs (qhi - (55 # 6)) < 1 # 100000000000000)%Q
       ∧ (833 # 1000 < qlo < 834 # 1000)%Q
       ∧ (9166 # 1000 < qhi < 9167 # 1000)%Q).
Proof.
  split.
  - eexists. split; [vm_compute; reflexivity|]. split; by vm_compute.
  - do 4 eexists. split; [vm_compute; reflexivity|].
    split; [vm_compute; reflexivity|]. split; [vm_compute; reflexivity|].
    split_and!; by vm_compute.
Qed.

(** C3 fails on the code: a press at (2, 2) on the viewport
    [-5, 5] x [-5, 5], one motion to (0, 1) and the release leave the
    viewport where it was, although the snapshot moved back by
    (0, 1) - (2, 2) is [-3, 7] x [-4, 6]; the same drag ending at (3, 4)
    is panned as claimed. *)
Theorem drag_to_zero_coordinate_not_panned :
  viewport (run id [Press (at_point (BInt 1) 2 2);
                    Motion (at_point BNone 0 1);
                    Release (outside (BInt 1))]
              (showing coins (-5) 5 : Viewer64))
  = Some (square (-5) 5)
  ∧ pan_back (square (-5) 5 : Rect b64) (of_int 0 - of_int 2)%py
             (of_int 1 - of_int 2)%py
    = ((of_int (-3), of_int 7), (of_int (-4), of_int 6))
  ∧ ¬ rect_eq (square (-5) 5 : Rect b64)
              ((of_int (-3), of_int 7), (of_int (-4), of_int 6))
  ∧ viewport (run id [Press (at_point (BInt 1) 2 2);
                      Motion (at_point BNone 3 4);
                      Release (outside (BInt 1))]
                (showing coins (-5) 5 : Viewer64))
    = Some ((of_int (-6), of_int 4), (of_int (-7), of_int 3)).
Proof.
  split_and!; [by vm_compute..| |by vm_compute].
  intros [Hc _]. vm_compute in Hc. discriminate.
Qed.

(** C4 as stated fails in two ways.  A primary-button pick while a drag
    is still under way (press at (2, 2) not yet released): the next press
    is dropped, but the motion to (3, 4) that follows pans the viewport
    from [-5, 5] x [-5, 5] to [-6, 4] x [-7, 3].  A pick delivered for the
    wheel over a glyph sets no flag: the next primary press starts a drag
    and the motion that follows pans likewise. *)
Lemma pick_does_not_stop_panning :
  viewport (dispatch id (showing coins (-5) 5 : Viewer64)
              (Press (at_point (BInt 1) 2 2)))
  = Some (square (-5) 5)
  ∧ viewport (run id [Pick (pick_row (BInt 1) 0);
                      Press (at_point (BInt 1) 1 1);
                      Motion (at_point BNone 3 4)]
                (dispatch id (showing coins (-5) 5 : Viewer64)
                   (Press (at_point (BInt 1) 2 2))))
    = Some ((of_int (-6), of_int 4), (of_int (-7), of_int 3))
  ∧ ¬ rect_eq ((of_int (-6), of_int 4), (of_int (-7), of_int 3))
              (square (-5) 5 : Rect b64)
  ∧ _is_dragging (run id [Pick (pick_row (BStr "up") 0);
                          Press (at_point (BInt 1) 2 2)]
                    (showing coins (-5) 5 : Viewer64))
    = Some true
  ∧ viewport (run id [Pick (pick_row (BStr "up") 0);
                      Press (at_point (BInt 1) 2 2);
                      Motion (at_point BNone 3 4)]
                (showing coins (-5) 5 : Viewer64))
    = Some ((of_int (-6), of_int 4), (of_int (-7), of_int 3)).
Proof.
  split_and!; [by vm_compute..| |by vm_compute|by vm_compute].
  intros [Hc _]. vm_compute in Hc. discriminate.
Qed.

(** C9 as stated fails for a pick that is not a primary-button one: on
    the table without its [name] column a right-button pick of row 0
    returns normally, shows nothing and leaves the suppression flag
    unset. *)
Lemma on_click_right_button_returns :
  columns coins_unnamed !! "name" = None
  ∧ on_click id (pick_row (BInt 3) 0) (showing coins_unnamed 0 10 : Viewer64)
    = (showing coins_unnamed 0 10, inr tt)
  ∧ _suppress_next_drag (showing coins_unnamed 0 10 : Viewer64) = false
  ∧ shown (showing coins_unnamed 0 10 : Viewer64) = [].
Proof. split_and!; by vm_compute. Qed.

(** *** The general statements at this session *)

Lemma scroll_up_centres_on_cursor_witness :
  button (at_point (num:=b64) (BStr "up") 5 5) = BStr "up"
  ∧ viewport (dispatch id (showing coins 0 10 : Viewer64)
                (Scroll (at_point (BStr "up") 5 5)))
    = Some (zoom_centred (square 0 10) (of_int 5) (of_int 5)
              (of_int 1 / lit_1_2)%py).
Proof.
  split; [reflexivity|].
  apply (scroll_up_centres_on_cursor id (showing coins 0 10)
           (at_point (BStr "up") 5 5) _ [] (of_int 5) (of_int 5)
           eq_refl eq_refl eq_refl eq_refl).
Defined.

Lemma scroll_applies_factor_witness :
  xdata (at_point (num:=b64) (BStr "other") 2 2) = Some (of_int 2)
  ∧ viewport (dispatch id (showing coins 0 10 : Viewer64)
                (Scroll (at_point (BStr "other") 2 2)))
    = Some (zoom_centred (square 0 10) (of_int 2) (of_int 2) (of_int 1)).
Proof.
  split; [reflexivity|].
  apply (scroll_applies_factor id (showing coins 0 10)
           (at_point (BStr "other") 2 2) _ [] (of_int 2) (of_int 2)
           eq_refl eq_refl eq_refl).
Defined.

Lemma press_after_pick_dropped_witness :
  button (mouseevent (pick_row (num:=b64) (BInt 1) 0)) = BInt 1
  ∧ idle (showing coins 0 10 : Viewer64)
  ∧ viewport (run id ([Pick (pick_row (BInt 1) 0);
                       Press (at_point (BInt 1) 1 1)]
                      ++ (Motion <$> [at_point BNone 3 4]))
                (showing coins 0 10 : Viewer64))
    = viewport (showing coins 0 10 : Viewer64).
Proof.
  split; [reflexivity|]. split; [reflexivity|].
  destruct (press_after_pick_dropped id (showing coins 0 10 : Viewer64)
              (pick_row (BInt 1) 0) (at_point (BInt 1) 1 1)
              [at_point BNone 3 4] (or_introl eq_refl))
    as (_ & _ & _ & _ & _ & _ & Hmotions).
  apply (proj2 (Hmotions eq_refl)).
Defined.

Lemma plot_coins_not_configured_witness :
  obv_column (loaded coins "" : Viewer64) = ""
  ∧ plot_coins id Set1 Set2 autoscale_view (loaded coins "" : Viewer64)
    = (loaded coins "", inr tt).
Proof.
  split; [reflexivity|].
  apply plot_coins_not_configured. right. right. left. reflexivity.
Defined.

Lemma rebuild_obverse_keeps_reverse_witness :
  df_wf coins
  ∧ ∃ (v1 v2 : Viewer64) ps ps',
      plot_coins id Set1 Set2 autoscale_view (loaded coins "obverse")
      = (v1, inr tt)
      ∧ patches v1 = Some ps
      ∧ plot_coins id Set1 Set2 autoscale_view (set_obv_column "name" v1)
        = (v2, inr tt)
      ∧ patches v2 = Some ps'
      ∧ length ps = 3
      ∧ Forall2 (λ g g', g.2 = g'.2 ∧ same_shape g.1 g'.1) ps ps'.
Proof.
  split; [exact coins_wf|].
  apply (rebuild_obverse_keeps_reverse id Set1 Set2 autoscale_view
           (loaded coins "obverse") "name"
           ["1"; "2"; "3"] ["1"; "1"; "2"] ["A"; "B"; "A"]
           ["c0"; "c1"; "c2"] ["X"; "Y"; "X"]);
    first [exact coins_wf | discriminate | reflexivity].
Defined.

Lemma on_click_needs_columns_witness :
  button (mouseevent (pick_row (num:=b64) (BInt 1) 0)) = BInt 1
  ∧ 0 < nrows coins
  ∧ ∃ v' : Viewer64,
      on_click id (pick_row (BInt 1) 0) (showing coins 0 10) = (v', inr tt).
Proof.
  split; [reflexivity|]. split; [cbn; lia|].
  apply (on_click_needs_columns id (showing coins 0 10) (pick_row (BInt 1) 0) 0);
    [exact coins_wf|reflexivity|reflexivity|cbn; lia|].
  split_and!; by eexists.
Defined.

Lemma motion_at_zero_ignored_witness :
  _is_dragging (dispatch id (showing coins (-5) 5 : Viewer64)
                  (Press (at_point (BInt 1) 2 2))) = Some true
  ∧ xdata (at_point (num:=b64) BNone 0 1) = Some (of_int 0)
  ∧ feq (of_int 0 : b64) (of_int 0)
  ∧ dispatch id (dispatch id (showing coins (-5) 5 : Viewer64)
                   (Press (at_point (BInt 1) 2 2)))
             (Motion (at_point BNone 0 1))
    = dispatch id (showing coins (-5) 5) (Press (at_point (BInt 1) 2 2)).
Proof.
  split_and!; [reflexivity..|].
  refine (proj1 (motion_at_zero_ignored id _ (at_point BNone 0 1) (of_int 0)
                   (or_introl eq_refl) _)).
  reflexivity.
Defined.
End Session.

(** * Further properties *)

(** ** The colour maps under a short or a long palette *)

Section Palette.
Context {cell color : Type} `{Countable cell}.
Implicit Types (col : list cell) (base : list color) (m : gmap cell color).

(** Lines 105 to 111: while the column has no more distinct values than
    the palette has colours, and the palette repeats none, two values
    with the same colour are the same value. *)
Theorem color_map_injective base col m a b :
  NoDup base → length (unique col) ≤ length base →
  color_map base col = inr m →
  a ∈ col → b ∈ col → m !! a = m !! b → a = b.
Proof.
  intros Hnd Hlen Hm Ha Hb Hab.
  apply elem_of_unique, list_elem_of_lookup in Ha as [i Hi].
  apply elem_of_unique, list_elem_of_lookup in Hb as [j Hj].
  assert (base ≠ []) as Hbase.
  { intros ->. apply lookup_lt_Some in Hi. simpl in Hlen. lia. }
  destruct (color_map_spec base col Hbase) as (m' & Hm' & Hin & _).
  rewrite Hm in Hm'. injection Hm' as <-.
  pose proof (lookup_lt_Some _ _ _ Hi) as Hilt.
  pose proof (lookup_lt_Some _ _ _ Hj) as Hjlt.
  rewrite (Hin i a Hi), (Hin j b Hj), !color_palette_lookup in Hab by done.
  rewrite !decide_True in Hab by done.
  rewrite !Nat.mod_small in Hab by lia.
  destruct (lookup_lt_is_Some_2 base i) as [c Hc]; [lia|].
  rewrite Hc in Hab. symmetry in Hab.
  assert (i = j) as -> by (eapply NoDup_lookup; eauto).
  congruence.
Qed.

(** Lines 107 to 111 never fail on a column with more distinct values
    than the palette has colours: the colours are reused in turn, so the
    first distinct value and the one [length base] places after it get
    the same colour. *)
Theorem color_map_wraps base col a b :
  base ≠ [] →
  unique col !! 0 = Some a → unique col !! length base = Some b →
  ∃ m c, color_map base col = inr m
         ∧ a ≠ b ∧ m !! a = Some c ∧ m !! b = Some c ∧ base !! 0 = Some c.
Proof.
  intros Hbase Ha Hb.
  destruct (color_map_spec base col Hbase) as (m & Hm & Hin & _).
  pose proof (lookup_lt_Some _ _ _ Hb) as Hlt.
  assert (0 < length base) by (destruct base; [done|simpl; lia]).
  destruct (lookup_lt_is_Some_2 base 0) as [c Hc]; [done|].
  exists m, c. split; [done|]. split.
  { intros ->. pose proof (NoDup_lookup _ _ _ _ (NoDup_unique col) Ha Hb). lia. }
  rewrite (Hin 0 a Ha), (Hin _ b Hb), !color_palette_lookup by done.
  rewrite !decide_True by lia.
  rewrite Nat.Div0.mod_same, Nat.Div0.mod_0_l. done.
Qed.
End Palette.

(** ** What a plot builds *)

Section Glyphs.
Context {num : Type} `{Float num}.
Context {cell color : Type} `{Countable cell}.
Variable str : cell → string.
Variables Set1 Set2 : list color.
Variable autoscale_view : list (Wedge cell color num) → (num * num) * (num * num).

#[local] Abbreviation Viewer := (Viewer cell color num).
Implicit Types (v : Viewer) (rows : list (cell * cell * cell * cell)).
Implicit Types (obv_map rev_map : gmap cell color).

Lemma wedge_pairs_lookup obv_map rev_map i0 rows ps k xi yi o rv :
  wedge_pairs (num:=num) obv_map rev_map i0 rows = Some ps →
  rows !! k = Some (xi, yi, o, rv) →
  ∃ c1 c2, obv_map !! o = Some c1 ∧ rev_map !! rv = Some c2
           ∧ ps !! k = Some (glyph (i0 + k) xi yi c1 c2).
Proof.
  revert i0 ps k.
  induction rows as [|[[[xi' yi'] o'] rv'] rows IH]; intros i0 ps k Hps Hk; [done|].
  cbn [wedge_pairs] in Hps.
  destruct (obv_map !! o') as [c1|] eqn:Ho; [|done].
  destruct (rev_map !! rv') as [c2|] eqn:Hr; [|done]. cbn in Hps.
  destruct (wedge_pairs obv_map rev_map (S i0) rows) as [tl|] eqn:Htl; [|done].
  injection Hps as <-. destruct k as [|k]; cbn in Hk.
  - simplify_eq. exists c1, c2. by rewrite Nat.add_0_r.
  - destruct (IH (S i0) tl k Htl Hk) as (d1 & d2 & ? & ? & Hlook).
    exists d1, d2. split_and!; [done..|].
    replace (i0 + S k) with (S i0 + k) by lia. exact Hlook.
Qed.

Lemma zip4_lookup (x y obv rev : list cell) i xi yi o rv :
  x !! i = Some xi → y !! i = Some yi → obv !! i = Some o → rev !! i = Some rv →
  zip4 x y obv rev !! i = Some (xi, yi, o, rv).
Proof.
  intros Hx Hy Ho Hr. unfold zip4.
  rewrite !lookup_zip_with, Hx, Hy, Ho, Hr. reflexivity.
Qed.

(** Lines 95 to 137, when the plot returns normally on a viewer whose
    four selectors name columns of the table: there is one glyph per
    table row; glyph [i] has both wedges centred at the x and y cells of
    row [i] with [gid] [i], the left one spanning 90 to 270 degrees in
    the colour of the row's obverse value, the right one 270 to 90 in
    the colour of its reverse value; the axes hold exactly these wedges,
    the view is autoscaled to them, the handlers are connected and one
    redraw is requested.  Errors that [Wedge] or the colour lookup of
    line 118 raise on cell values (text coordinates, NaN categories)
    are outside the model: the statement is about the runs that
    return. *)
Theorem plot_coins_builds_glyphs v v' x y obv rev :
  Set1 ≠ [] → Set2 ≠ [] → df_wf (df v) →
  all_selected [x_column v; y_column v; obv_column v; rev_column v] = true →
  columns (df v) !! x_column v = Some x →
  columns (df v) !! y_column v = Some y →
  columns (df v) !! obv_column v = Some obv →
  columns (df v) !! rev_column v = Some rev →
  plot_coins str Set1 Set2 autoscale_view v = (v', inr tt) →
  ∃ obv_map rev_map ps,
    color_map Set1 obv = inr obv_map
    ∧ color_map Set2 rev = inr rev_map
    ∧ patches v' = Some ps
    ∧ length ps = nrows (df v)
    ∧ figure_axes v'
      = [mkAxes false (flat_wedges ps)
           (autoscale_view (flat_wedges ps)).1
           (autoscale_view (flat_wedges ps)).2]
    ∧ connected v' = true
    ∧ draws v' = S (draws v)
    ∧ ∀ i xi yi o rv,
        x !! i = Some xi → y !! i = Some yi →
        obv !! i = Some o → rev !! i = Some rv →
        ∃ c1 c2, obv_map !! o = Some c1 ∧ rev_map !! rv = Some c2
                 ∧ ps !! i = Some (glyph i xi yi c1 c2).
Proof.
  intros H1 H2 Hwf Hsel Hx Hy Hobv Hrev Hreturns.
  destruct (plot_coins_configured str Set1 Set2 autoscale_view v x y obv rev)
    as (obv_map & rev_map & ps & Hom & Hrm & Hps & Hplot); [done..|].
  rewrite Hplot in Hreturns. injection Hreturns as <-.
  exists obv_map, rev_map, ps.
  split_and!; [done|done|by destruct v| |by destruct v..|].
  - rewrite (length_wedge_pairs _ _ _ _ _ Hps).
    apply length_zip4; by eapply Hwf.
  - intros i xi yi o rv Hxi Hyi Ho Hr.
    destruct (wedge_pairs_lookup _ _ _ _ _ i xi yi o rv Hps) as (c1 & c2 & ?);
      [by apply zip4_lookup|].
    by exists c1, c2.
Qed.

(** Lines 92 to 98: with the four selectors set, the table is read in
    the order x, y, obverse, reverse, and the first selector that names
    no column raises [KeyError] with its text, before the figure is
    cleared: the viewer keeps its scene, viewport and glyphs. *)
Theorem plot_coins_missing_column v :
  all_selected [x_column v; y_column v; obv_column v; rev_column v] = true →
  let has key := is_Some (columns (df v) !! key) in
  let raises key :=
    plot_coins str Set1 Set2 autoscale_view v = (v, inl (KeyError key)) in
  (¬ has (x_column v) → raises (x_column v))
  ∧ (has (x_column v) → ¬ has (y_column v) → raises (y_column v))
  ∧ (has (x_column v) → has (y_column v) → ¬ has (obv_column v) →
     raises (obv_column v))
  ∧ (has (x_column v) → has (y_column v) → has (obv_column v) →
     ¬ has (rev_column v) → raises (rev_column v)).
Proof.
  intros Hsel has raises. unfold raises, has, plot_coins, df_getitem. py_run.
  rewrite Hsel. cbn [negb]. py_run.
  destruct (columns (df v) !! x_column v) as [x|] eqn:Hx; py_run.
  2:{ split_and!; [done|by intros [? ?]..]. }
  destruct (columns (df v) !! y_column v) as [y|] eqn:Hy; py_run.
  2:{ split_and!; [by intros []|done|by intros _ [? ?]..]. }
  destruct (columns (df v) !! obv_column v) as [obv|] eqn:Hobv; py_run.
  2:{ split_and!; [by intros []|by intros _ []|done|by intros _ _ [? ?]]. }
  destruct (columns (df v) !! rev_column v) as [rev|] eqn:Hrev; py_run.
  2:{ split_and!; [by intros []|by intros _ []|by intros _ _ []|done]. }
  split_and!; [by intros []|by intros _ []|by intros _ _ []
              |by intros _ _ _ []].
Qed.

(** Lines 100 to 137: plotting again with nothing changed rebuilds the
    same scene; the wedges of the first plot are not kept beside the new
    ones, only one more redraw is requested. *)
Theorem plot_coins_again v x y obv rev :
  Set1 ≠ [] → Set2 ≠ [] →
  all_selected [x_column v; y_column v; obv_column v; rev_column v] = true →
  columns (df v) !! x_column v = Some x →
  columns (df v) !! y_column v = Some y →
  columns (df v) !! obv_column v = Some obv →
  columns (df v) !! rev_column v = Some rev →
  ∃ v1,
    plot_coins str Set1 Set2 autoscale_view v = (v1, inr tt)
    ∧ plot_coins str Set1 Set2 autoscale_view v1
      = (set_draws (S (draws v1)) v1, inr tt).
Proof.
  intros H1 H2 Hsel Hx Hy Hobv Hrev.
  destruct (plot_coins_configured str Set1 Set2 autoscale_view v x y obv rev)
    as (obv_map & rev_map & ps & Hom & Hrm & Hps & Hplot); [done..|].
  destruct (plot_coins_configured str Set1 Set2 autoscale_view
              (plotted autoscale_view v ps) x y obv rev)
    as (obv_map' & rev_map' & ps' & Hom' & Hrm' & Hps' & Hplot');
    [done|done|by destruct v..|].
  rewrite Hom in Hom'. rewrite Hrm in Hrm'. simplify_eq.
  exists (plotted autoscale_view v ps). split; [done|].
  rewrite Hplot'. by destruct v.
Qed.
End Glyphs.

(** ** The handlers, case by case *)

Section Gestures.
Context {num : Type} `{Float num}.
Context {cell color : Type}.
Variable str : cell → string.

#[local] Abbreviation Viewer := (Viewer cell color num).
#[local] Abbreviation Event := (@Event num cell color).
Implicit Types (v : Viewer) (event : MouseEvent num) (ax : Axes cell color num).


Lemma on_press_otherwise v event :
  ¬ (_suppress_next_drag v = false ∧ button event = BInt 1
     ∧ inaxes event = true) →
  on_press event v = (set_suppress_next_drag false v, inr tt).
Proof.
  intros Hnot. unfold on_press. py_run.
  destruct (_suppress_next_drag v) eqn:Hs; [done|].
  assert (button_is_int (button event) 1 && inaxes event = false) as ->.
  { apply not_true_is_false. intros [Hb Hin]%andb_true_iff. apply Hnot.
    split_and!; [done| |done].
    destruct (button event) as [n| |]; cbn in Hb; try done.
    by apply bool_decide_eq_true in Hb as ->. }
  destruct v; cbn in *; by subst.
Qed.

(** Lines 194 to 203, all cases: a press starts a drag exactly when no
    suppression is pending, the button is 1 and the pointer is inside the
    axes; it then records the press point and the current view limits.
    In every other case it changes nothing but the suppression flag,
    which it clears.  No press moves the viewport. *)
Theorem on_press_cases v event ax rest :
  figure_axes v = ax :: rest →
  let starts := _suppress_next_drag v = false ∧ button event = BInt 1
                ∧ inaxes event = true in
  (starts →
   on_press event v
   = (set_ylim_start (Some (ylim ax))
        (set_xlim_start (Some (xlim ax))
           (set_drag_start (Some (xdata event, ydata event))
              (set_is_dragging (Some true) v))),
      inr tt))
  ∧ (¬ starts → on_press event v = (set_suppress_next_drag false v, inr tt))
  ∧ viewport (dispatch str v (Press event)) = viewport v.
Proof.
  intros Hax starts.
  assert (starts → on_press event v
                   = (set_ylim_start (Some (ylim ax))
                        (set_xlim_start (Some (xlim ax))
                           (set_drag_start (Some (xdata event, ydata event))
                              (set_is_dragging (Some true) v))), inr tt)) as Hyes.
  { intros (Hs & Hb & Hin). by apply on_press_starts with rest. }
  pose proof (on_press_otherwise v event) as Hno.
  split_and!; [done..|].
  unfold dispatch. cbn [handler].
  destruct (decide starts) as [Hs|Hs].
  - rewrite Hyes by done. unfold viewport. cbn. reflexivity.
  - rewrite Hno by done. by destruct v.
Qed.

(** Lines 220 to 221 with 207 to 218: a release ends the drag whatever
    the state; the motion events after it, until the next press, change
    nothing. *)
Theorem release_ends_drag v release (motions : list (MouseEvent num)) :
  run str (Release release :: (Motion <$> motions)) v
  = set_is_dragging (Some false) v
  ∧ viewport (run str (Release release :: (Motion <$> motions)) v) = viewport v.
Proof.
  assert (run str (Release release :: (Motion <$> motions)) v
          = set_is_dragging (Some false) v) as ->.
  { rewrite run_cons. change (dispatch str v (Release release))
      with (set_is_dragging (Some false) v).
    generalize (set_is_dragging (Some false) v) (eq_refl : idle (set_is_dragging (Some false) v)).
    induction motions as [|m ms IH]; intros w Hw; [done|].
    cbn [fmap list_fmap]. rewrite run_cons. unfold dispatch at 1. cbn [handler].
    rewrite on_motion_ignored by tauto. by apply IH. }
  split; [done|]. by destruct v.
Qed.

(** On any pick the handler touches at most the suppression flag and the
    messages shown. *)
Lemma on_click_frame v (pick : PickEvent cell color num) :
  ∃ res flag' shown',
    on_click str pick v
    = (set_shown shown' (set_suppress_next_drag flag' v), res)
    ∧ (button (mouseevent pick) = BInt 1 → flag' = true).
Proof.
  destruct (decide (button (mouseevent pick) = BInt 1)) as [Hb|Hb].
  - destruct (on_click_primary str v pick Hb) as (res & shown' & ->).
    by exists res, true, shown'.
  - rewrite on_click_other_button by done.
    exists (inr tt), (_suppress_next_drag v), (shown v).
    split; [by destruct v|done].
Qed.

(** Lines 143 and 195 to 197: the suppression is spent by one press,
    however many primary-button picks set it; the primary press inside
    the axes after that one starts a drag from the current view. *)
Theorem suppression_spent_once v (picks : list (PickEvent cell color num))
    press1 press2 ax rest :
  picks ≠ [] →
  Forall (λ p, button (mouseevent p) = BInt 1) picks →
  figure_axes v = ax :: rest →
  button press2 = BInt 1 → inaxes press2 = true →
  let v1 := run str ((Pick <$> picks) ++ [Press press1]) v in
  let v2 := dispatch str v1 (Press press2) in
  _suppress_next_drag v1 = false
  ∧ _is_dragging v1 = _is_dragging v
  ∧ _is_dragging v2 = Some true
  ∧ _drag_start v2 = Some (xdata press2, ydata press2)
  ∧ _xlim_start v2 = Some (xlim ax)
  ∧ _ylim_start v2 = Some (ylim ax).
Proof.
  intros Hne Hprim Hax Hb2 Hin2 v1 v2.
  assert (∃ shown', run str (Pick <$> picks) v
                    = set_shown shown' (set_suppress_next_drag true v))
    as [shown' Hpicks].
  { clear v1 v2 Hax. revert v Hne.
    induction Hprim as [|p ps Hp _ IH]; intros v Hne; [done|].
    cbn [fmap list_fmap]. rewrite run_cons. unfold dispatch at 1. cbn [handler].
    destruct (on_click_primary str v p Hp) as (res & s & ->). cbn [fst].
    destruct ps as [|p' ps']; [by exists s|].
    destruct (IH (set_shown s (set_suppress_next_drag true v))) as [s' ->]; [done|].
    exists s'. by destruct v. }
  assert (v1 = set_suppress_next_drag false (set_shown shown' v)) as Hv1.
  { unfold v1. rewrite run_app, Hpicks. cbn [run foldl].
    unfold dispatch. cbn [handler].
    rewrite on_press_suppressed by (by destruct v). by destruct v. }
  assert (on_press press2 v1
          = (set_ylim_start (Some (ylim ax))
               (set_xlim_start (Some (xlim ax))
                  (set_drag_start (Some (xdata press2, ydata press2))
                     (set_is_dragging (Some true) v1))), inr tt)) as Hpress.
  { apply on_press_starts with rest; [|done|done|]; rewrite Hv1; by destruct v. }
  unfold v2, dispatch. cbn [handler]. rewrite Hpress.
  split_and!; try reflexivity; rewrite Hv1; by destruct v.
Qed.
End Gestures.

(** ** Picking a glyph *)

Section Inspection.
Context {num : Type} `{Float num}.
Context {cell color : Type} `{Countable cell}.
Variable str : cell → string.
Variables Set1 Set2 : list color.
Variable autoscale_view : list (Wedge cell color num) → (num * num) * (num * num).

#[local] Abbreviation Viewer := (Viewer cell color num).
Implicit Types (v : Viewer) (pick : PickEvent cell color num).

(** Lines 143 to 146: a primary-button pick of a wedge whose [gid] is
    not a row of the table now loaded (a plot of an earlier, longer
    table) raises [IndexError] with the suppression flag set and nothing
    shown. *)
Theorem on_click_stale_row v pick i :
  button (mouseevent pick) = BInt 1 →
  gid (artist pick) = Some i → nrows (df v) ≤ i →
  on_click str pick v = (set_suppress_next_drag true v, inl IndexError).
Proof.
  intros Hb Hgid Hi. unfold on_click. rewrite Hb. cbn [button_is_int].
  rewrite bool_decide_eq_true_2 by done. cbn [negb]. py_run.
  rewrite Hgid. py_run. cbn [df set_suppress_next_drag].
  unfold iloc. rewrite decide_False by lia. reflexivity.
Qed.

Lemma on_click_shows v pick i name og rg :
  button (mouseevent pick) = BInt 1 →
  gid (artist pick) = Some i → i < nrows (df v) →
  columns (df v) !! "name" ≫= (.!! i) = Some name →
  columns (df v) !! "obverse_group" ≫= (.!! i) = Some og →
  columns (df v) !! "reverse_group" ≫= (.!! i) = Some rg →
  on_click str pick v
  = (set_shown
       (("Name: " ++ str name ++ nl
         ++ "Obverse Group: " ++ str og ++ nl
         ++ "Reverse Group: " ++ str rg)%string :: shown v)
       (set_suppress_next_drag true v),
     inr tt).
Proof.
  intros Hb Hgid Hi Hn Ho Hr. unfold on_click. rewrite Hb. cbn [button_is_int].
  rewrite bool_decide_eq_true_2 by done. cbn [negb]. py_run.
  rewrite Hgid. py_run. cbn [df set_suppress_next_drag].
  unfold iloc. rewrite decide_True by done. py_run.
  assert (∀ key, omap (λ col : list cell, col !! i) (columns (df v)) !! key
                 = columns (df v) !! key ≫= (.!! i)) as Hrow
    by (intros; apply lookup_omap).
  rewrite !Hrow, Hn. py_run. rewrite Ho. py_run. rewrite Hr. py_run.
  reflexivity.
Qed.

(** Lines 115 to 128 with 139 to 152: after a plot, a primary-button
    pick of either half of the glyph of row [i] shows the name and the
    two groups of that same row. *)
Theorem pick_after_plot_shows_row v x y obv rev i name og rg mouse :
  Set1 ≠ [] → Set2 ≠ [] → df_wf (df v) →
  all_selected [x_column v; y_column v; obv_column v; rev_column v] = true →
  columns (df v) !! x_column v = Some x →
  columns (df v) !! y_column v = Some y →
  columns (df v) !! obv_column v = Some obv →
  columns (df v) !! rev_column v = Some rev →
  i < nrows (df v) →
  columns (df v) !! "name" ≫= (.!! i) = Some name →
  columns (df v) !! "obverse_group" ≫= (.!! i) = Some og →
  columns (df v) !! "reverse_group" ≫= (.!! i) = Some rg →
  button mouse = BInt 1 →
  ∃ v' ps left right,
    plot_coins str Set1 Set2 autoscale_view v = (v', inr tt)
    ∧ patches v' = Some ps ∧ ps !! i = Some (left, right)
    ∧ ∀ half, half = left ∨ half = right →
        on_click str (mkPickEvent mouse half) v'
        = (set_shown
             (("Name: " ++ str name ++ nl
               ++ "Obverse Group: " ++ str og ++ nl
               ++ "Reverse Group: " ++ str rg)%string :: shown v')
             (set_suppress_next_drag true v'),
           inr tt).
Proof.
  intros H1 H2 Hwf Hsel Hx Hy Hobv Hrev Hi Hn Ho Hr Hb.
  destruct (plot_coins_configured str Set1 Set2 autoscale_view v x y obv rev)
    as (obv_map & rev_map & ps & Hom & Hrm & Hps & Hplot); [done..|].
  assert (∀ (col : list cell) key, columns (df v) !! key = Some col →
            ∃ c, col !! i = Some c) as Hcell.
  { intros col key Hcol. apply lookup_lt_is_Some_2. by rewrite (Hwf _ _ Hcol). }
  destruct (Hcell _ _ Hx) as [xi Hxi]. destruct (Hcell _ _ Hy) as [yi Hyi].
  destruct (Hcell _ _ Hobv) as [o Hoi]. destruct (Hcell _ _ Hrev) as [rv Hri].
  destruct (wedge_pairs_lookup _ _ _ _ _ i xi yi o rv Hps)
    as (c1 & c2 & _ & _ & Hlook); [by apply zip4_lookup|].
  exists (plotted autoscale_view v ps), ps,
         (glyph i xi yi c1 c2).1, (glyph i xi yi c1 c2).2.
  split_and!; [done|by destruct v|done|].
  intros half Hhalf.
  apply on_click_shows with i; [done| |by destruct v..].
  by destruct Hhalf as [-> | ->].
Qed.
End Inspection.

(** ** Drags, one after the other *)

Section Drags.
Context {num : Type} `{Float num}.
Context {cell color : Type}.
Variable str : cell → string.

#[local] Abbreviation Viewer := (Viewer cell color num).
#[local] Abbreviation Event := (@Event num cell color).
Implicit Types (v : Viewer) (event : MouseEvent num) (ax : Axes cell color num).

Lemma motion_during_drag v event px py snapshot rest :
  dragging_from v px py snapshot →
  _suppress_next_drag v = false →
  (∃ ax, figure_axes v = ax :: rest) →
  let v' := dispatch str v (Motion event) in
  dragging_from v' px py snapshot
  ∧ _suppress_next_drag v' = false
  ∧ ∃ ax', figure_axes v' = ax' :: rest.
Proof.
  intros Hdrag Hs [ax Hax] v'.
  split; [by apply motion_keeps_dragging|].
  unfold v', dispatch. cbn [handler].
  assert (on_motion event v = (v, inr tt) →
          _suppress_next_drag (on_motion event v).1 = false
          ∧ ∃ ax', figure_axes (on_motion event v).1 = ax' :: rest) as Hsame.
  { intros ->. cbn. eauto. }
  destruct (inaxes event) eqn:Hin;
    [|apply Hsame, on_motion_ignored; tauto].
  destruct (xdata event) as [qx|] eqn:Hx;
    [|apply Hsame, on_motion_ignored; rewrite Hx; cbn; tauto].
  destruct (ydata event) as [qy|] eqn:Hy;
    [|apply Hsame, on_motion_ignored; rewrite Hy; cbn; tauto].
  destruct (truthy qx) eqn:Hqx;
    [|apply Hsame, on_motion_ignored; rewrite Hx; cbn; tauto].
  destruct (truthy qy) eqn:Hqy;
    [|apply Hsame, on_motion_ignored; rewrite Hy; cbn; tauto].
  rewrite (on_motion_drag v event px py snapshot qx qy ax rest); [|done..].
  cbn. split; [done|]. by eexists.
Qed.

Lemma drag_leaves v ax rest press px py (motions : list (MouseEvent num))
    last qx qy release :
  _suppress_next_drag v = false → figure_axes v = ax :: rest →
  button press = BInt 1 → inside press px py →
  inside last qx qy → truthy qx = true → truthy qy = true →
  let v' := run str (drag press motions last release) v in
  let vp := pan_back (xlim ax, ylim ax) (qx - px)%py (qy - py)%py in
  _suppress_next_drag v' = false
  ∧ ∃ ax', figure_axes v' = ax' :: rest ∧ xlim ax' = vp.1 ∧ ylim ax' = vp.2.
Proof.
  intros Hs Hax Hb (Hin & Hpx & Hpy) Hlast Hqx Hqy v' vp.
  unfold v', drag. rewrite run_cons, run_app.
  set (v1 := dispatch str v (Press press)).
  assert (dragging_from v1 px py (xlim ax, ylim ax)
          ∧ _suppress_next_drag v1 = false
          ∧ ∃ ax1, figure_axes v1 = ax1 :: rest) as Hinv.
  { unfold v1, dispatch. cbn [handler].
    rewrite (on_press_starts v press ax rest) by done.
    rewrite Hpx, Hpy. split_and!; [repeat split; cbn; by rewrite ?Hax|done|].
    cbn. eauto. }
  assert (∀ w, (dragging_from w px py (xlim ax, ylim ax)
                ∧ _suppress_next_drag w = false
                ∧ ∃ a, figure_axes w = a :: rest) →
               let w' := run str (Motion <$> motions) w in
               dragging_from w' px py (xlim ax, ylim ax)
               ∧ _suppress_next_drag w' = false
               ∧ ∃ a, figure_axes w' = a :: rest) as Hmotions.
  { induction motions as [|m ms IH]; intros w Hw; [done|].
    cbn [fmap list_fmap]. rewrite run_cons. apply IH.
    destruct Hw as (? & ? & ?). by apply motion_during_drag. }
  destruct (Hmotions v1 Hinv) as (Hdrag & Hs2 & a2 & Ha2).
  set (v2 := run str (Motion <$> motions) v1) in *.
  cbn [run foldl]. unfold dispatch. cbn [handler].
  rewrite (on_motion_drag v2 last px py _ qx qy a2 rest) by done.
  cbn. split; [done|]. by eexists.
Qed.

(** Lines 194 to 218 within one gesture: the motions before the last one
    leave no trace.  A drag whose last motion is inside the axes at a
    point with non-zero coordinates shows the press-time view moved back
    by the distance from the press point to that point, exactly as the
    same drag without the motions in between. *)
Theorem drag_forgets_motions_between v ax rest press px py
    (motions : list (MouseEvent num)) last qx qy release :
  _suppress_next_drag v = false → figure_axes v = ax :: rest →
  button press = BInt 1 → inside press px py →
  inside last qx qy → truthy qx = true → truthy qy = true →
  viewport (run str (drag press motions last release) v)
  = Some (pan_back (xlim ax, ylim ax) (qx - px)%py (qy - py)%py)
  ∧ viewport (run str (drag press motions last release) v)
    = viewport (run str (drag press [] last release) v).
Proof.
  intros Hs Hax Hb Hp Hl Hqx Hqy. unfold drag.
  rewrite (drag_pans_from_snapshot str v ax rest press px py motions
             last qx qy release) by done.
  split; [done|]. symmetry.
  by apply (drag_pans_from_snapshot str v ax rest press px py []
              last qx qy release).
Qed.

(** Lines 194 to 221 over two gestures: the second drag starts from the
    view the first one left, so the two displacements add up: the
    viewport ends at the first press-time view moved back by the first
    drag and then by the second. *)
Theorem drags_accumulate v ax rest
    press1 p1x p1y (motions1 : list (MouseEvent num)) last1 q1x q1y release1
    press2 p2x p2y (motions2 : list (MouseEvent num)) last2 q2x q2y release2 :
  _suppress_next_drag v = false → figure_axes v = ax :: rest →
  button press1 = BInt 1 → inside press1 p1x p1y →
  inside last1 q1x q1y → truthy q1x = true → truthy q1y = true →
  button press2 = BInt 1 → inside press2 p2x p2y →
  inside last2 q2x q2y → truthy q2x = true → truthy q2y = true →
  viewport (run str (drag press1 motions1 last1 release1
                     ++ drag press2 motions2 last2 release2) v)
  = Some (pan_back
            (pan_back (xlim ax, ylim ax) (q1x - p1x)%py (q1y - p1y)%py)
            (q2x - p2x)%py (q2y - p2y)%py).
Proof.
  intros Hs Hax Hb1 Hp1 Hl1 Hq1x Hq1y Hb2 Hp2 Hl2 Hq2x Hq2y.
  rewrite run_app.
  destruct (drag_leaves v ax rest press1 p1x p1y motions1 last1 q1x q1y release1)
    as (Hs1 & ax1 & Hax1 & Hx1 & Hy1); [done..|].
  unfold drag at 1.
  rewrite (drag_pans_from_snapshot str _ ax1 rest press2 p2x p2y motions2
             last2 q2x q2y release2) by done.
  by rewrite Hx1, Hy1.
Qed.
End Drags.

(** ** From start-up on: what the handlers can rely on *)

Section Safety.
Context {num : Type} `{Float num}.
Context {cell color : Type} `{Countable cell}.
Variable str : cell → string.
Variables Set1 Set2 : list color.
Variable autoscale_view : list (Wedge cell color num) → (num * num) * (num * num).

#[local] Abbreviation Viewer := (Viewer cell color num).
#[local] Abbreviation Event := (@Event num cell color).
#[local] Abbreviation Action := (@Action num cell color).
Implicit Types (v w : Viewer) (event : MouseEvent num) (ev : Event).

Lemma same_drag_refl v : same_drag v v.
Proof. by repeat split. Qed.

Lemma same_drag_trans v w u : same_drag v w → same_drag w u → same_drag v u.
Proof.
  intros (?&?&?&?&?&?) (?&?&?&?&?&?). repeat split; try congruence. auto.
Qed.

Lemma add_wedges_same_drag obv_map rev_map i rows v :
  same_drag v (add_wedges str obv_map rev_map i rows v).1.
Proof.
  revert i v. induction rows as [|[[[xi yi] o] rv] rows IH]; intros i v.
  - apply same_drag_refl.
  - cbn [add_wedges]. py_run.
    destruct (obv_map !! o) as [c1|]; py_run; [|apply same_drag_refl].
    unfold on_axes at 1. py_run.
    destruct (rev_map !! rv) as [c2|]; py_run.
    2:{ cbn. repeat split. cbn. destruct (figure_axes v); done. }
    unfold on_axes at 1. py_run.
    eapply same_drag_trans; [|apply IH].
    repeat split. cbn. destruct (figure_axes v); done.
Qed.

(** Whatever [plot_coins] does, it keeps the drag attributes, and it
    leaves the handlers connected only with axes in the figure. *)
Lemma plot_coins_ready v :
  ready v → ready (plot_coins str Set1 Set2 autoscale_view v).1.
Proof.
  intros [Hconn Hdrag]. unfold plot_coins, df_getitem. py_run.
  destruct (all_selected _); cbn [negb]; [|done]. py_run.
  destruct (columns (df v) !! x_column v) as [x|]; py_run; [|done].
  destruct (columns (df v) !! y_column v) as [y|]; py_run; [|done].
  destruct (columns (df v) !! obv_column v) as [obv|]; py_run; [|done].
  destruct (columns (df v) !! rev_column v) as [rev|]; py_run; [|done].
  unfold on_axes at 1. py_run. cbn [figure_axes set_figure_axes]. cbn zeta.
  destruct (dict_enumerate _ 0 (unique obv) ∅) as [e|obv_map]; cbn [lift]; py_run.
  { split; [done|]. by destruct v. }
  destruct (dict_enumerate _ 0 (unique rev) ∅) as [e|rev_map]; cbn [lift]; py_run.
  { split; [done|]. by destruct v. }
  match goal with
  | |- ready (bind (add_wedges ?s ?om ?rm ?i ?rows) ?k ?w).1 =>
      pose proof (add_wedges_same_drag om rm i rows w) as Hsame;
      unfold bind at 1;
      destruct (add_wedges s om rm i rows w) as [w' [e|[]]]
  end; cbn [fst] in *.
  - destruct Hsame as (Hd & Hst & Hxs & Hys & Hc & Hfig). split.
    + intros _. apply Hfig. by destruct v.
    + rewrite Hd, Hst, Hxs, Hys. by destruct v.
  - destruct Hsame as (Hd & Hst & Hxs & Hys & Hc & Hfig).
    unfold on_axes, draw. py_run. unfold modify. cbn [fst]. split.
    + intros _. cbn. assert (figure_axes w' ≠ []) by (apply Hfig; by destruct v).
      by destruct (figure_axes w').
    + cbn. rewrite Hd, Hst, Hxs, Hys. by destruct v.
Qed.

(** A connected handler given a located event keeps [ready]; with the
    view limits stored as given, none of the lookups of [on_scroll],
    [on_press], [on_motion] and [on_release] fails. *)
Lemma dispatch_ready v ev :
  ready v → connected v = true → located_event ev →
  ready (dispatch str v ev)
  ∧ connected (dispatch str v ev) = true
  ∧ ((∀ p, ev ≠ Pick p) → ∃ v', handler str ev v = (v', inr tt)).
Proof.
  intros [Hconn Hdrag] Hc Hloc. specialize (Hconn Hc).
  destruct (figure_axes v) as [|ax rest] eqn:Hax; [done|].
  assert (ready v) as Hready by (split; [by rewrite Hax|done]).
  unfold dispatch. destruct ev as [e|e|e|e|p]; cbn [handler located_event] in *.
  - (* on_scroll *)
    destruct (xdata e) as [xd|] eqn:Hx, (ydata e) as [yd|] eqn:Hy.
    + rewrite (on_scroll_valid v e ax rest xd yd) by done.
      split_and!; [|by destruct v|by eauto].
      split; [done|]. cbn. done.
    + unfold on_scroll, axes0. py_run. rewrite Hax, Hx, Hy. cbn [head]. py_run.
      split_and!; [done|done|by eauto].
    + unfold on_scroll, axes0. py_run. rewrite Hax, Hx. cbn [head]. py_run.
      split_and!; [done|done|by eauto].
    + unfold on_scroll, axes0. py_run. rewrite Hax, Hx. cbn [head]. py_run.
      split_and!; [done|done|by eauto].
  - (* on_press *)
    destruct (decide (_suppress_next_drag v = false ∧ button e = BInt 1
                      ∧ inaxes e = true)) as [Hs|Hs].
    + destruct Hs as (Hflag & Hb & Hin).
      rewrite (on_press_starts v e ax rest) by done.
      destruct (Hloc Hin) as [[px Hpx] [py Hpy]]. rewrite Hpx, Hpy.
      split_and!; [|by destruct v|by eauto].
      split; [intros _; cbn; by rewrite ?Hax|]. intros _. cbn. by eexists _, _, _, _.
    + rewrite on_press_otherwise by done.
      split_and!; [|by destruct v|by eauto].
      split; [intros _; cbn; by rewrite ?Hax|]. destruct v; cbn in *. done.
  - (* on_motion *)
    destruct (decide (_is_dragging v = Some true ∧ inaxes e = true
                      ∧ truthy_opt (xdata e) = true
                      ∧ truthy_opt (ydata e) = true))
      as [(Hd & Hin & Htx & Hty)|Hnot].
    + destruct (Hdrag Hd) as (px & py & xs & ys & Hst & Hxs & Hys).
      destruct (xdata e) as [qx|] eqn:Hx; [|done].
      destruct (ydata e) as [qy|] eqn:Hy; [|done]. cbn in Htx, Hty.
      rewrite (on_motion_drag v e px py (xs, ys) qx qy ax rest);
        [|by repeat split; rewrite ?Hax|done..].
      split_and!; [|by destruct v|by eauto].
      split; [done|]. cbn. done.
    + rewrite on_motion_ignored.
      * split_and!; [done|done|by eauto].
      * unfold idle.
        destruct (_is_dragging v) as [[]|]; [|tauto..].
        destruct (inaxes e); [|tauto].
        destruct (truthy_opt (xdata e)); [|tauto].
        destruct (truthy_opt (ydata e)); [|tauto].
        destruct Hnot. done.
  - (* on_release *)
    split_and!; [|by destruct v|by eauto].
    split; [intros _; cbn; by rewrite ?Hax|]. by destruct v.
  - (* on_click *)
    destruct (on_click_frame str v p) as (res & flag' & shown' & -> & _).
    split_and!; [|by destruct v|by intros Hp; destruct (Hp p)].
    split; [intros _; cbn; by rewrite ?Hax|]. by destruct v.
Qed.

(** Lines 16 to 58, 86 to 137 and 156 to 221 together: from the state
    [__init__] sets up, however the table and the selections change,
    however often the plot button is clicked and whatever located events
    the canvas delivers once the handlers are connected, a connected
    handler finds [figure.axes[0]], and a drag under way has
    [_drag_start] with both coordinates, [_xlim_start] and
    [_ylim_start]. *)
Theorem session_keeps_ready (actions : list Action) :
  Forall located_action actions →
  ready (session str Set1 Set2 autoscale_view actions).
Proof.
  unfold session. induction actions as [|a actions IH] using rev_ind; intros Hloc.
  - split; [done|done].
  - apply Forall_app in Hloc as [Hloc Ha]. apply Forall_inv in Ha.
    rewrite foldl_app. cbn [foldl]. specialize (IH Hloc).
    destruct a as [d x_col y_col obv_col rev_col| |ev]; cbn [act].
    + destruct IH. by split.
    + by apply plot_coins_ready.
    + destruct (connected _) eqn:Hc; [|done].
      by destruct (dispatch_ready _ ev IH Hc Ha) as [? _].
Qed.
End Safety.

(** ** The viewport in exact arithmetic *)

Section ExactViews.
Context {cell color : Type}.
Variable str : cell → string.

#[local] Abbreviation Viewer := (Viewer cell color Q).
#[local] Abbreviation Event := (@Event Q cell color).
Implicit Types (v : Viewer) (event : MouseEvent Q) (ax : Axes cell color Q).

Lemma scale_factor_exact (b : Button) :
  (scale_factor (num:=Q) b == 5 # 6 ∨ scale_factor (num:=Q) b == 6 # 5
   ∨ scale_factor (num:=Q) b == 1)%Q.
Proof.
  unfold scale_factor.
  destruct (button_is_str b "up"); [left; reflexivity|].
  destruct (button_is_str b "down"); [right; left|right; right]; reflexivity.
Qed.

Lemma scale_factor_pos (b : Button) : (0 < scale_factor (num:=Q) b)%Q.
Proof. destruct (scale_factor_exact b) as [-> | [-> | ->]]; reflexivity. Qed.

(** Lines 172 to 191: a scroll event with cursor coordinates multiplies
    the width and the height of the viewport by the factor of the wheel
    signal (5/6 for up, 6/5 for down, 1 otherwise) and puts the cursor at
    its centre. *)
Theorem scroll_scales_about_cursor v event ax rest cx cy :
  figure_axes v = ax :: rest →
  xdata event = Some cx → ydata event = Some cy →
  ∃ vp' factor,
    viewport (dispatch str v (Scroll event)) = Some vp'
    ∧ (button event = BStr "up" → factor = (5 # 6)%Q)
    ∧ (button event = BStr "down" → factor = (6 # 5)%Q)
    ∧ (button event ≠ BStr "up" → button event ≠ BStr "down" → factor = 1%Q)
    ∧ ((extent vp').1 == (extent (xlim ax, ylim ax)).1 * factor
       ∧ (extent vp').2 == (extent (xlim ax, ylim ax)).2 * factor
       ∧ (centre vp').1 == cx ∧ (centre vp').2 == cy)%Q.
Proof.
  intros Hax Hx Hy.
  rewrite (viewport_scroll str v event ax rest cx cy) by done.
  eexists _, (if button_is_str (button event) "up" then 5 # 6
              else if button_is_str (button event) "down" then 6 # 5
              else 1)%Q.
  split; [reflexivity|].
  split; [by intros ->|]. split; [by intros ->|]. split.
  { intros Hup Hdown. destruct (button event) as [n|s|]; cbn; try done.
    by rewrite !bool_decide_eq_false_2 by congruence. }
  destruct ax as [on ps [xl xr] [yb yt]].
  unfold extent, centre, zoom_centred, scale_factor; cbn.
  unfold Qdiv. change (/ inject_Z 2)%Q with (1 # 2)%Q.
  change (/ (6 # 5))%Q with (5 # 6)%Q. change (inject_Z 1) with 1%Q.
  destruct (button_is_str (button event) "up");
    [|destruct (button_is_str (button event) "down")];
    split_and!; ring.
Qed.

(** Lines 156 to 192 twice: a wheel-up and then a wheel-down event at the
    same cursor give back the old width and height, centred on the
    cursor; the old viewport itself comes back when the cursor was at its
    centre. *)
Theorem scroll_up_then_down v up down ax rest cx cy :
  figure_axes v = ax :: rest →
  button up = BStr "up" → button down = BStr "down" →
  xdata up = Some cx → ydata up = Some cy →
  xdata down = Some cx → ydata down = Some cy →
  ∃ vp',
    viewport (run str [Scroll up; Scroll down] v) = Some vp'
    ∧ rect_eq vp' (zoom_centred (xlim ax, ylim ax) cx cy 1%Q)
    ∧ ((cx == (centre (xlim ax, ylim ax)).1
        ∧ cy == (centre (xlim ax, ylim ax)).2)%Q →
       rect_eq vp' (xlim ax, ylim ax)).
Proof.
  intros Hax Hbu Hbd Hxu Hyu Hxd Hyd.
  change (run str [Scroll up; Scroll down] v)
    with (dispatch str (dispatch str v (Scroll up)) (Scroll down)).
  set (v1 := dispatch str v (Scroll up)).
  assert (∃ ax1, figure_axes v1 = ax1 :: rest
                 ∧ (xlim ax1, ylim ax1)
                   = zoom_centred (xlim ax, ylim ax) cx cy
                       (scale_factor (button up))) as (ax1 & Hax1 & Hvp1).
  { unfold v1, dispatch. cbn [handler].
    rewrite (on_scroll_valid v up ax rest cx cy) by done.
    eexists. split; [reflexivity|]. by destruct ax. }
  rewrite (viewport_scroll str v1 down ax1 rest cx cy) by done.
  rewrite Hvp1. eexists. split; [reflexivity|].
  rewrite Hbu, Hbd. destruct ax as [on ps [xl xr] [yb yt]].
  change (scale_factor (BStr "up")) with (1 / (6 # 5))%Q.
  change (scale_factor (BStr "down")) with (6 # 5)%Q.
  unfold rect_eq, zoom_centred, centre; cbn.
  assert (1 / (6 # 5) == 5 # 6)%Q as -> by reflexivity.
  unfold Qdiv. change (/ inject_Z 2)%Q with (1 # 2)%Q.
  split; [split_and!; lra|]. intros [Hcx Hcy]. split_and!; lra.
Qed.

(** Lines 207 to 218: a drag moves the viewport without rescaling it:
    after a drag ending at a point with non-zero coordinates the width
    and the height are those at the press. *)
Theorem drag_keeps_size v ax rest press px py
    (motions : list (MouseEvent Q)) last qx qy release :
  _suppress_next_drag v = false → figure_axes v = ax :: rest →
  button press = BInt 1 → inside press px py →
  inside last qx qy → truthy qx = true → truthy qy = true →
  ∃ vp',
    viewport (run str (drag press motions last release) v) = Some vp'
    ∧ ((extent vp').1 == (extent (xlim ax, ylim ax)).1
       ∧ (extent vp').2 == (extent (xlim ax, ylim ax)).2
       ∧ vp'.1.1 == (xlim ax).1 + px - qx
       ∧ vp'.2.1 == (ylim ax).1 + py - qy)%Q.
Proof.
  intros Hs Hax Hb Hp Hl Hqx Hqy. unfold drag.
  rewrite (drag_pans_from_snapshot str v ax rest press px py motions
             last qx qy release) by done.
  eexists. split; [reflexivity|].
  destruct ax as [on ps [xl xr] [yb yt]].
  unfold extent, pan_back; cbn. split_and!; ring.
Qed.

Lemma scroll_well_ordered v event :
  well_ordered v → well_ordered (dispatch str v (Scroll event)).
Proof.
  intros Hv. pose proof Hv as [Hview Hsnap]. unfold dispatch. cbn [handler].
  destruct (figure_axes v) as [|ax rest] eqn:Hax.
  { unfold on_scroll, axes0. py_run. rewrite Hax. exact Hv. }
  destruct (xdata event) as [cx|] eqn:Hx, (ydata event) as [cy|] eqn:Hy.
  2-4: unfold on_scroll, axes0; py_run; rewrite Hax, Hx, ?Hy; cbn [head];
       py_run; exact Hv.
  rewrite (on_scroll_valid v event ax rest cx cy) by done. cbn [fst].
  split; [|done]. intros ax' [= <-].
  destruct (Hview ax eq_refl) as [Hw Hh].
  pose proof (scale_factor_pos (button event)) as Hf.
  destruct ax as [on ps [xl xr] [yb yt]]. unfold ordered in *; cbn in *.
  unfold Qdiv. change (/ inject_Z 2)%Q with (1 # 2)%Q.
  assert (0 < (xr - xl) * scale_factor (button event))%Q
    by (apply Qmult_lt_0_compat; lra).
  assert (0 < (yt - yb) * scale_factor (button event))%Q
    by (apply Qmult_lt_0_compat; lra).
  split; lra.
Qed.

Lemma press_well_ordered v event :
  well_ordered v → well_ordered (dispatch str v (Press event)).
Proof.
  intros Hv. pose proof Hv as [Hview Hsnap]. unfold dispatch. cbn [handler].
  unfold on_press, axes0. py_run.
  destruct (_suppress_next_drag v); [by split|].
  destruct (button_is_int (button event) 1 && inaxes event); [|exact Hv].
  py_run. cbn [figure_axes set_drag_start set_is_dragging].
  destruct (figure_axes v) as [|ax rest] eqn:Hax; cbn [head]; py_run.
  - split; cbn; [by rewrite Hax|done].
  - split; cbn; [by rewrite Hax|]. intros xs ys [= <-] [= <-].
    by apply Hview.
Qed.

Lemma motion_well_ordered v event :
  well_ordered v → well_ordered (dispatch str v (Motion event)).
Proof.
  intros Hv. pose proof Hv as [Hview Hsnap]. unfold dispatch. cbn [handler].
  unfold on_motion, getattr. py_run.
  destruct (_ && _ && _ && _); [|exact Hv]. py_run.
  destruct (_drag_start v) as [[opx opy]|]; py_run; [|exact Hv]. cbn [fst snd].
  destruct (xdata event) as [qx|], opx as [px|]; cbn [sub_opt]; py_run;
    try exact Hv.
  destruct (ydata event) as [qy|], opy as [py|]; cbn [sub_opt]; py_run;
    try exact Hv.
  destruct (_xlim_start v) as [[x0 x1]|] eqn:Hxs; py_run; [|exact Hv].
  destruct (_ylim_start v) as [[y0 y1]|] eqn:Hys; py_run; [|exact Hv].
  unfold on_axes, draw_idle, draw. py_run. unfold modify. cbn [fst].
  destruct (Hsnap _ _ eq_refl eq_refl) as [Hw Hh]. cbn in Hw, Hh.
  split; cbn.
  - destruct (figure_axes v) as [|ax rest]; [done|]. intros ax' [= <-].
    unfold ordered; cbn. split; lra.
  - rewrite Hxs, Hys. intros xs ys [= <-] [= <-]. by split.
Qed.

(** Lines 156 to 221: in exact arithmetic no sequence of scroll, press,
    motion, release and pick events can flip or collapse the viewport:
    while the view limits and the drag snapshot start with
    [xMin < xMax] and [yMin < yMax], they keep them. *)
Theorem viewport_stays_ordered v (events : list Event) :
  well_ordered v →
  well_ordered (run str events v)
  ∧ ∀ vp', viewport (run str events v) = Some vp' → ordered vp'.
Proof.
  intros Hv.
  assert (well_ordered (run str events v)) as Hrun.
  { revert v Hv. induction events as [|ev events IH]; intros v Hv; [done|].
    rewrite run_cons. apply IH. destruct ev as [e|e|e|e|p].
    - by apply scroll_well_ordered.
    - by apply press_well_ordered.
    - by apply motion_well_ordered.
    - destruct Hv. by split.
    - unfold dispatch. cbn [handler].
      destruct (on_click_frame str v p) as (res & flag' & shown' & -> & _).
      destruct Hv. by split. }
  split; [done|]. intros vp' Hvp. unfold viewport in Hvp.
  destruct (head (figure_axes (run str events v))) as [ax|] eqn:Hax; [|done].
  cbn in Hvp. injection Hvp as <-. destruct Hrun as [Hview _]. by apply Hview.
Qed.
End ExactViews.

(** ** The further properties at the small session *)

Module Checks.
Import Example.

#[local] Abbreviation b64 := spec_float.
#[local] Abbreviation Viewer64 := (Viewer string string spec_float).
#[local] Abbreviation ViewerQ := (Viewer string string Q).
#[local] Abbreviation axes_of lo hi :=
  (mkAxes false [] (of_int lo, of_int hi) (of_int lo, of_int hi)).

Lemma color_map_injective_witness :
  NoDup Set1
  ∧ ∀ m, color_map Set1 ["A"; "B"; "A"] = inr m →
         m !! "A" = m !! "A" → "A" = "A".
Proof.
  split; [refine (bool_decide_unpack _ _); vm_compute; exact I|].
  intros m Hm.
  apply (color_map_injective Set1 ["A"; "B"; "A"] m "A" "A");
    [refine (bool_decide_unpack _ _); vm_compute; exact I
    |vm_compute; lia|exact Hm|set_solver|set_solver].
Defined.

Lemma color_map_wraps_witness :
  unique ["A"; "B"; "C"] !! length ["red"; "blue"] = Some "C"
  ∧ ∃ m c, color_map ["red"; "blue"] ["A"; "B"; "C"] = inr m
           ∧ "A" ≠ "C" ∧ m !! "A" = Some c ∧ m !! "C" = Some c
           ∧ ["red"; "blue"] !! 0 = Some c.
Proof.
  split; [reflexivity|].
  apply (color_map_wraps ["red"; "blue"] ["A"; "B"; "C"] "A" "C");
    [discriminate|reflexivity|reflexivity].
Defined.

Lemma plot_coins_builds_glyphs_witness :
  df_wf coins
  ∧ plot_coins id Set1 Set2 autoscale_view (loaded coins "obverse" : Viewer64)
    = ((plot_coins id Set1 Set2 autoscale_view (loaded coins "obverse")).1,
       inr tt)
  ∧ ∃ obv_map rev_map ps,
      color_map Set1 ["A"; "B"; "A"] = inr obv_map
      ∧ color_map Set2 ["X"; "Y"; "X"] = inr rev_map
      ∧ patches (plot_coins id Set1 Set2 autoscale_view
                   (loaded coins "obverse" : Viewer64)).1 = Some ps
      ∧ length ps = 3.
Proof.
  split; [exact Session.coins_wf|]. split; [by vm_compute|].
  destruct (plot_coins_builds_glyphs id Set1 Set2 autoscale_view
              (loaded coins "obverse" : Viewer64)
              (plot_coins id Set1 Set2 autoscale_view
                 (loaded coins "obverse")).1
              ["1"; "2"; "3"] ["1"; "1"; "2"] ["A"; "B"; "A"] ["X"; "Y"; "X"])
    as (obv_map & rev_map & ps & Hom & Hrm & Hps & Hlen & _);
    [discriminate|discriminate|exact Session.coins_wf|reflexivity
    |reflexivity|reflexivity|reflexivity|reflexivity|by vm_compute|].
  by exists obv_map, rev_map, ps.
Defined.

Lemma plot_coins_missing_column_witness :
  columns coins !! "missing" = None
  ∧ plot_coins id Set1 Set2 autoscale_view (loaded coins "missing" : Viewer64)
    = (loaded coins "missing", inl (KeyError "missing")).
Proof.
  split; [reflexivity|].
  destruct (plot_coins_missing_column id Set1 Set2 autoscale_view
              (loaded coins "missing" : Viewer64) eq_refl)
    as (_ & _ & Hobv & _).
  apply Hobv; [by eexists|by eexists|].
  intros [col Hcol]. discriminate Hcol.
Defined.

Lemma plot_coins_again_witness :
  all_selected ["x"; "y"; "obverse"; "reverse"] = true
  ∧ ∃ v1 : Viewer64,
      plot_coins id Set1 Set2 autoscale_view (loaded coins "obverse")
      = (v1, inr tt)
      ∧ plot_coins id Set1 Set2 autoscale_view v1
        = (set_draws (S (draws v1)) v1, inr tt).
Proof.
  split; [reflexivity|].
  apply (plot_coins_again id Set1 Set2 autoscale_view
           (loaded coins "obverse" : Viewer64)
           ["1"; "2"; "3"] ["1"; "1"; "2"] ["A"; "B"; "A"] ["X"; "Y"; "X"]);
    first [discriminate | reflexivity].
Defined.


Lemma on_press_cases_witness :
  figure_axes (showing coins 0 10 : Viewer64)
  = [mkAxes false [] (of_int 0, of_int 10) (of_int 0, of_int 10)]
  ∧ viewport (dispatch id (showing coins 0 10 : Viewer64)
                (Press (at_point (BInt 1) 2 2)))
    = viewport (showing coins 0 10 : Viewer64).
Proof.
  split; [reflexivity|].
  apply (on_press_cases id (showing coins 0 10 : Viewer64)
           (at_point (BInt 1) 2 2) (axes_of 0 10) [] eq_refl).
Defined.

Lemma suppression_spent_once_witness :
  button (at_point (num:=b64) (BInt 1) 2 2) = BInt 1
  ∧ _is_dragging
      (dispatch id
         (run id ((Pick <$> [pick_row (BInt 1) 0; pick_row (BInt 1) 1])
                  ++ [Press (at_point (BInt 1) 1 1)])
            (showing coins 0 10 : Viewer64))
         (Press (at_point (BInt 1) 2 2)))
    = Some true.
Proof.
  split; [reflexivity|].
  destruct (suppression_spent_once id (showing coins 0 10 : Viewer64)
              [pick_row (BInt 1) 0; pick_row (BInt 1) 1]
              (at_point (BInt 1) 1 1) (at_point (BInt 1) 2 2) (axes_of 0 10) [])
    as (_ & _ & Hdrag & _);
    [discriminate|by repeat constructor|reflexivity..|].
  exact Hdrag.
Defined.

Lemma on_click_stale_row_witness :
  nrows coins ≤ 5
  ∧ on_click id (pick_row (BInt 1) 5) (showing coins 0 10 : Viewer64)
    = (set_suppress_next_drag true (showing coins 0 10), inl IndexError).
Proof.
  split; [cbn; lia|].
  apply (on_click_stale_row id (showing coins 0 10 : Viewer64)
           (pick_row (BInt 1) 5) 5); [reflexivity|reflexivity|cbn; lia].
Defined.

Lemma pick_after_plot_shows_row_witness :
  columns coins !! "name" ≫= (.!! 1) = Some "c1"
  ∧ ∃ (v' : Viewer64) ps left right,
      plot_coins id Set1 Set2 autoscale_view (loaded coins "obverse")
      = (v', inr tt)
      ∧ patches v' = Some ps ∧ ps !! 1 = Some (left, right)
      ∧ ∀ half, half = left ∨ half = right →
          on_click id (mkPickEvent (at_point (BInt 1) 2 1) half) v'
          = (set_shown
               (("Name: " ++ "c1" ++ nl
                 ++ "Obverse Group: " ++ "B" ++ nl
                 ++ "Reverse Group: " ++ "Y")%string :: shown v')
               (set_suppress_next_drag true v'),
             inr tt).
Proof.
  split; [reflexivity|].
  apply (pick_after_plot_shows_row id Set1 Set2 autoscale_view
           (loaded coins "obverse" : Viewer64)
           ["1"; "2"; "3"] ["1"; "1"; "2"] ["A"; "B"; "A"] ["X"; "Y"; "X"]
           1 "c1" "B" "Y" (at_point (BInt 1) 2 1));
    first [exact Session.coins_wf | discriminate | reflexivity | cbn; lia].
Defined.

Lemma drag_forgets_motions_between_witness :
  truthy (of_int 3 : b64) = true
  ∧ viewport (run id (drag (at_point (BInt 1) 2 2)
                        [at_point BNone 0 1; outside BNone]
                        (at_point BNone 3 4) (outside (BInt 1)))
                (showing coins (-5) 5 : Viewer64))
    = Some (pan_back (square (-5) 5)
              (of_int 3 - of_int 2)%py (of_int 4 - of_int 2)%py).
Proof.
  split; [reflexivity|].
  apply (drag_forgets_motions_between id (showing coins (-5) 5 : Viewer64) (axes_of (-5) 5) []
           (at_point (BInt 1) 2 2) (of_int 2) (of_int 2)
           [at_point BNone 0 1; outside BNone]
           (at_point BNone 3 4) (of_int 3) (of_int 4) (outside (BInt 1)));
    first [reflexivity | by repeat split].
Defined.

Lemma drags_accumulate_witness :
  truthy (of_int 2 : b64) = true
  ∧ viewport (run id (drag (at_point (BInt 1) 2 2) [] (at_point BNone 3 4)
                        (outside (BInt 1))
                      ++ drag (at_point (BInt 1) 1 1) [] (at_point BNone 2 3)
                           (outside (BInt 1)))
                (showing coins (-5) 5 : Viewer64))
    = Some (pan_back
              (pan_back (square (-5) 5)
                 (of_int 3 - of_int 2)%py (of_int 4 - of_int 2)%py)
              (of_int 2 - of_int 1)%py (of_int 3 - of_int 1)%py).
Proof.
  split; [reflexivity|].
  apply (drags_accumulate id (showing coins (-5) 5 : Viewer64) (axes_of (-5) 5) []
           (at_point (BInt 1) 2 2) (of_int 2) (of_int 2) []
           (at_point BNone 3 4) (of_int 3) (of_int 4) (outside (BInt 1))
           (at_point (BInt 1) 1 1) (of_int 1) (of_int 1) []
           (at_point BNone 2 3) (of_int 2) (of_int 3) (outside (BInt 1)));
    first [reflexivity | by repeat split].
Defined.

Lemma session_keeps_ready_witness :
  located_event (Press (cell:=string) (color:=string)
                   (at_point (num:=b64) (BInt 1) 2 2))
  ∧ ready (session id Set1 Set2 autoscale_view
             [Reload coins "x" "y" "obverse" "reverse"; ClickPlot;
              Canvas (Press (at_point (num:=b64) (BInt 1) 2 2))]).
Proof.
  split; [intros _; split; by eexists|].
  apply (session_keeps_ready id Set1 Set2 autoscale_view
           [Reload coins "x" "y" "obverse" "reverse"; ClickPlot;
            Canvas (Press (at_point (num:=b64) (BInt 1) 2 2))]).
  apply Forall_cons. split; [exact I|]. apply Forall_cons. split; [exact I|].
  apply Forall_cons. split; [|apply Forall_nil_2].
  intros _. split; by eexists.
Defined.

Lemma scroll_scales_about_cursor_witness :
  xdata (at_point (num:=Q) (BStr "up") 2 2) = Some 2%Q
  ∧ ∃ vp' factor,
      viewport (dispatch id (showing coins 0 10 : ViewerQ)
                  (Scroll (at_point (BStr "up") 2 2))) = Some vp'
      ∧ factor = (5 # 6)%Q
      ∧ ((extent vp').1 == 10 * factor ∧ (centre vp').1 == 2)%Q.
Proof.
  split; [reflexivity|].
  destruct (scroll_scales_about_cursor id (showing coins 0 10 : ViewerQ)
              (at_point (BStr "up") 2 2) (axes_of 0 10) []
              (of_int 2) (of_int 2) eq_refl eq_refl eq_refl)
    as (vp' & factor & Hvp & Hup & _ & _ & Hw & _ & Hc & _).
  exists vp', factor. split_and!; [exact Hvp|by apply Hup| |exact Hc].
  rewrite Hw. reflexivity.
Defined.

Lemma scroll_up_then_down_witness :
  button (at_point (num:=Q) (BStr "up") 5 5) = BStr "up"
  ∧ ∃ vp',
      viewport (run id [Scroll (at_point (BStr "up") 5 5);
                        Scroll (at_point (BStr "down") 5 5)]
                  (showing coins 0 10 : ViewerQ)) = Some vp'
      ∧ rect_eq vp' (square 0 10).
Proof.
  split; [reflexivity|].
  destruct (scroll_up_then_down id (showing coins 0 10 : ViewerQ)
              (at_point (BStr "up") 5 5) (at_point (BStr "down") 5 5) (axes_of 0 10) []
              (of_int 5) (of_int 5)
              eq_refl eq_refl eq_refl eq_refl eq_refl eq_refl eq_refl)
    as (vp' & Hvp & _ & Hcentre).
  exists vp'. split; [exact Hvp|]. apply Hcentre. split; reflexivity.
Defined.

Lemma drag_keeps_size_witness :
  truthy (3 : Q) = true
  ∧ ∃ vp',
      viewport (run id (drag (at_point (BInt 1) 2 2) [at_point BNone 0 1]
                          (at_point BNone 3 4) (outside (BInt 1)))
                  (showing coins (-5) 5 : ViewerQ)) = Some vp'
      ∧ ((extent vp').1 == 10 ∧ (extent vp').2 == 10)%Q.
Proof.
  split; [reflexivity|].
  destruct (drag_keeps_size id (showing coins (-5) 5 : ViewerQ) (axes_of (-5) 5) []
              (at_point (BInt 1) 2 2) (of_int 2) (of_int 2) [at_point BNone 0 1]
              (at_point BNone 3 4) (of_int 3) (of_int 4) (outside (BInt 1)))
    as (vp' & Hvp & Hw & Hh & _);
    [reflexivity|reflexivity|reflexivity|by repeat split|by repeat split
    |reflexivity|reflexivity|].
  exists vp'. split; [exact Hvp|]. split; [by rewrite Hw|by rewrite Hh].
Defined.

Lemma viewport_stays_ordered_witness :
  well_ordered (showing coins 0 10 : ViewerQ)
  ∧ ∀ vp',
      viewport (run id [Scroll (at_point (BStr "down") 2 2);
                        Press (at_point (BInt 1) 2 2);
                        Motion (at_point BNone 3 4)]
                  (showing coins 0 10 : ViewerQ)) = Some vp' →
      ordered vp'.
Proof.
  assert (well_ordered (showing coins 0 10 : ViewerQ)) as Hwo.
  { split; [|discriminate]. intros ax [= <-]. split; reflexivity. }
  split; [exact Hwo|].
  apply (viewport_stays_ordered id (showing coins 0 10 : ViewerQ)
           [Scroll (at_point (BStr "down") 2 2);
            Press (at_point (BInt 1) 2 2);
            Motion (at_point BNone 3 4)] Hwo).
Defined.
End Checks.
